(** * StarMap: the sky projection and the interactive viewport of
    space-map-explorer (src/starMap.js)

    The development embeds the [StarMap] class: the projection
    [raDecToCanvas], the visibility test [isPointVisible], the catalog and
    the constellation graph, the plotted-object list and the handlers that
    move the viewport.

    Numbers.  A JavaScript number is modelled by a real number: [+], [-],
    [*], [/] are the operations of [R], [Math.sin], [Math.cos], [Math.acos]
    and [Math.PI] are [sin], [cos], [acos] and [PI], [Math.max] and
    [Math.min] are [Rmax] and [Rmin].  Every real is a finite number, so
    NaN, the infinities and rounding are outside the model; a property
    proved here is the property of the formulas the code evaluates.
    Where the rounding of the code could tell the two apart, a statement
    carries the bounds and the room that keep it true of the code.

    Objects.  The fields of [this] are the fields of the record [StarMap];
    a method is a computation in the state monad [M] over that record, so
    that what a method reads and what it assigns are both visible.

    Painting.  The 2D context is not a field of the record: what
    [render()] does to it is the list of calls [Paint.render] returns. *)

From Stdlib Require Import Reals Lra Lia List String Bool Arith DecimalString.
Import ListNotations.

Open Scope R_scope.

(** ** Numbers and comparisons *)

Module JS.

(** [a < b] and [a > b] on numbers, as booleans. *)
Definition ltb (a b : R) : bool := if Rlt_dec a b then true else false.
Definition gtb (a b : R) : bool := ltb b a.

(** Truthiness of a string: the empty string is falsy. *)
Definition truthy (s : string) : bool :=
  match s with
  | EmptyString => false
  | String _ _ => true
  end.

(** [`${i}`] for a loop counter [i]. *)
Definition ofNat (i : nat) : string := NilZero.string_of_uint (Nat.to_uint i).

End JS.

Infix "<?" := JS.ltb (at level 70, no associativity) : R_scope.
Infix ">?" := JS.gtb (at level 70, no associativity) : R_scope.

(** ** Data *)

(** [this.canvas], of which the class reads and writes [width] and
    [height]. *)
Record Canvas := mkCanvas { width : R; height : R }.

(** A catalog entry [{ name, ra, dec, mag }]: right ascension in hours,
    declination in degrees. *)
Record Star := mkStar { name : string; ra : R; dec : R; mag : R }.

(** An entry of [this.plottedObjects]: [{ name, ra, dec, type }]. *)
Record PlottedObject := mkPlotted {
  obj_name : string;
  obj_ra : R;
  obj_dec : R;
  obj_type : string
}.

(** The result [{ x, y }] of the projection. *)
Record Point := mkPoint { x : R; y : R }.

(** An entry [{ star1, star2 }] of [this.constellations]. *)
Record Line := mkLine { star1 : Star; star2 : Star }.

(** The fields of a [StarMap] instance. *)
Record StarMap := mkStarMap {
  canvas : Canvas;
  zoom : R;
  panX : R;
  panY : R;
  showConstellations : bool;
  isDragging : bool;
  lastMouseX : R;
  lastMouseY : R;
  stars : list Star;
  plottedObjects : list PlottedObject;
  constellations : list Line
}.

(** Field assignments [this.f = v]. *)
Definition set_canvas (v : Canvas) (s : StarMap) : StarMap :=
  mkStarMap v (zoom s) (panX s) (panY s) (showConstellations s)
    (isDragging s) (lastMouseX s) (lastMouseY s) (stars s)
    (plottedObjects s) (constellations s).
Definition set_zoom (v : R) (s : StarMap) : StarMap :=
  mkStarMap (canvas s) v (panX s) (panY s) (showConstellations s)
    (isDragging s) (lastMouseX s) (lastMouseY s) (stars s)
    (plottedObjects s) (constellations s).
Definition set_panX (v : R) (s : StarMap) : StarMap :=
  mkStarMap (canvas s) (zoom s) v (panY s) (showConstellations s)
    (isDragging s) (lastMouseX s) (lastMouseY s) (stars s)
    (plottedObjects s) (constellations s).
Definition set_panY (v : R) (s : StarMap) : StarMap :=
  mkStarMap (canvas s) (zoom s) (panX s) v (showConstellations s)
    (isDragging s) (lastMouseX s) (lastMouseY s) (stars s)
    (plottedObjects s) (constellations s).
Definition set_showConstellations (v : bool) (s : StarMap) : StarMap :=
  mkStarMap (canvas s) (zoom s) (panX s) (panY s) v
    (isDragging s) (lastMouseX s) (lastMouseY s) (stars s)
    (plottedObjects s) (constellations s).
Definition set_isDragging (v : bool) (s : StarMap) : StarMap :=
  mkStarMap (canvas s) (zoom s) (panX s) (panY s) (showConstellations s)
    v (lastMouseX s) (lastMouseY s) (stars s)
    (plottedObjects s) (constellations s).
Definition set_lastMouseX (v : R) (s : StarMap) : StarMap :=
  mkStarMap (canvas s) (zoom s) (panX s) (panY s) (showConstellations s)
    (isDragging s) v (lastMouseY s) (stars s)
    (plottedObjects s) (constellations s).
Definition set_lastMouseY (v : R) (s : StarMap) : StarMap :=
  mkStarMap (canvas s) (zoom s) (panX s) (panY s) (showConstellations s)
    (isDragging s) (lastMouseX s) v (stars s)
    (plottedObjects s) (constellations s).
Definition set_plottedObjects (v : list PlottedObject) (s : StarMap) : StarMap :=
  mkStarMap (canvas s) (zoom s) (panX s) (panY s) (showConstellations s)
    (isDragging s) (lastMouseX s) (lastMouseY s) (stars s)
    v (constellations s).

(** ** Methods as state computations *)

Definition M (A : Type) : Type := StarMap -> A * StarMap.

Definition ret {A : Type} (a : A) : M A := fun this => (a, this).

Definition bind {A B : Type} (m : M A) (k : A -> M B) : M B :=
  fun this => let (a, this') := m this in k a this'.

(** Read a field of [this]. *)
Definition get {A : Type} (f : StarMap -> A) : M A := fun this => (f this, this).

(** Assign a field of [this]. *)
Definition assign (f : StarMap -> StarMap) : M unit := fun this => (tt, f this).

Notation "v <- m ;; k" := (bind m (fun v => k))
  (at level 61, m at next level, right associativity).
Notation "m ;; k" := (bind m (fun _ => k))
  (at level 61, right associativity).

(** The state a method leaves and the value it returns. *)
Definition exec {A : Type} (m : M A) (this : StarMap) : StarMap := snd (m this).
Definition eval {A : Type} (m : M A) (this : StarMap) : A := fst (m this).

(** ** Projection and visibility *)

(** [raDecToCanvas(ra, dec)]: right ascension in hours and declination in
    degrees to canvas coordinates. *)
Definition raDecToCanvas (ra dec : R) : M Point :=
  w <- get (fun this => width (canvas this)) ;;
  h <- get (fun this => height (canvas this)) ;;
  px <- get panX ;;
  py <- get panY ;;
  z <- get zoom ;;
  let centerX := w / 2 in
  let centerY := h / 2 in
  let raRad := (ra * 15 - 180) * PI / 180 in
  let decRad := dec * PI / 180 in
  let cosDec := cos decRad in
  let x := centerX + px + (sin raRad * cosDec * w * z * 0.4) in
  let y := centerY + py - (cos raRad * cosDec * w * z * 0.4) in
  ret (mkPoint x y).

(** [isPointVisible(pos)]. *)
Definition isPointVisible (pos : Point) : M bool :=
  w <- get (fun this => width (canvas this)) ;;
  h <- get (fun this => height (canvas this)) ;;
  ret ((x pos >? -50) && (x pos <? w + 50) &&
       (y pos >? -50) && (y pos <? h + 50)).

(** [render()] paints the frame on the 2D context of the canvas from the
    fields of [this]; it assigns none of them, and the context is not part
    of the state modelled here. *)
Definition render : M unit := ret tt.

(** ** The catalog and the constellation graph *)

(** [generateRandomStars(count, minMag, maxMag)].  [Math.random] is a
    parameter: [random k] is the value of its [k]-th call, and an entry
    makes three calls, for [ra], [dec] and [mag] in that order. *)
Definition generateRandomStars (random : nat -> R) (count : nat)
    (minMag maxMag : R) : list Star :=
  map (fun i : nat =>
         mkStar ("Star_" ++ JS.ofNat i)
                (random (3 * i)%nat * 24)
                ((random (3 * i + 1)%nat - 0.5) * 180)
                (minMag + random (3 * i + 2)%nat * (maxMag - minMag)))
      (seq 0 count).

(** The literal entries of [generateStarCatalog()]. *)
Definition brightestStars : list Star :=
  [ mkStar "Sirius" 6.75 (-16.7) (-1.46);
    mkStar "Canopus" 6.40 (-52.7) (-0.74);
    mkStar "Arcturus" 14.26 19.2 (-0.05);
    mkStar "Vega" 18.62 38.8 0.03;
    mkStar "Capella" 5.28 45.98 0.08;
    mkStar "Rigel" 5.24 (-8.2) 0.18;
    mkStar "Procyon" 7.66 5.2 0.34;
    mkStar "Betelgeuse" 5.92 7.4 0.42;
    mkStar "Achernar" 1.63 (-57.2) 0.46;
    mkStar "Altair" 19.85 8.87 0.76;
    mkStar "Spica" 13.42 (-11.16) 0.98;
    mkStar "Pollux" 7.76 28.0 1.16;
    mkStar "Fomalhaut" 22.96 (-29.6) 1.17;
    mkStar "Deneb" 20.69 45.28 1.25;
    mkStar "Regulus" 10.14 11.97 1.36 ].

(** [generateStarCatalog()]. *)
Definition generateStarCatalog (random : nat -> R) : list Star :=
  brightestStars ++ generateRandomStars random 200 0.5 4.0.

(** The angular distance, in degrees, that [generateConstellationLines]
    computes for a pair. *)
Definition angularDist (s1 s2 : Star) : R :=
  let ra1 := ra s1 * 15 * PI / 180 in
  let dec1 := dec s1 * PI / 180 in
  let ra2 := ra s2 * 15 * PI / 180 in
  let dec2 := dec s2 * PI / 180 in
  acos (sin dec1 * sin dec2 + cos dec1 * cos dec2 * cos (ra1 - ra2))
  * 180 / PI.

(** The filter [s => s.mag < 2.0 && s.name && !s.name.startsWith('Star_')]. *)
Definition isBrightStar (s : Star) : bool :=
  (mag s <? 2.0) && JS.truthy (name s) && negb (prefix "Star_" (name s)).

(** The inner loop, [j] from [i + 1]: the pairs of [s1] with the entries
    after it. *)
Fixpoint linesFrom (s1 : Star) (rest : list Star) : list Line :=
  match rest with
  | [] => []
  | s2 :: rest' =>
      if angularDist s1 s2 <? 30
      then mkLine s1 s2 :: linesFrom s1 rest'
      else linesFrom s1 rest'
  end.

(** The outer loop, over [i]. *)
Fixpoint linesAmong (brightStars : list Star) : list Line :=
  match brightStars with
  | [] => []
  | s1 :: rest => linesFrom s1 rest ++ linesAmong rest
  end.

(** [generateConstellationLines()]. *)
Definition generateConstellationLines : M (list Line) :=
  catalog <- get stars ;;
  let brightStars := filter isBrightStar catalog in
  ret (linesAmong brightStars).

(** ** Plotted objects and view controls *)

(** [plotObject(name, ra, dec, type = 'Object')]; [None] is an omitted or
    undefined [type]. *)
Definition plotObject (name : string) (ra dec : R) (type : option string)
    : M unit :=
  let type := match type with Some t => t | None => "Object"%string end in
  objs <- get plottedObjects ;;
  assign (set_plottedObjects
            (filter (fun obj => negb (String.eqb (obj_name obj) name)) objs)) ;;
  objs <- get plottedObjects ;;
  assign (set_plottedObjects (objs ++ [mkPlotted name ra dec type])) ;;
  pos <- raDecToCanvas ra dec ;;
  w <- get (fun this => width (canvas this)) ;;
  assign (set_panX (- x pos + w / 2)) ;;
  h <- get (fun this => height (canvas this)) ;;
  assign (set_panY (- y pos + h / 2)) ;;
  assign (set_zoom 2) ;;
  render.

(** [clearPlottedObjects()]. *)
Definition clearPlottedObjects : M unit :=
  assign (set_plottedObjects []) ;;
  render.

(** [resetView()]. *)
Definition resetView : M unit :=
  assign (set_zoom 1) ;;
  assign (set_panX 0) ;;
  assign (set_panY 0) ;;
  render.

(** [toggleConstellations()]; the button caption is not modelled. *)
Definition toggleConstellations : M unit :=
  b <- get showConstellations ;;
  assign (set_showConstellations (negb b)) ;;
  render.

(** ** Event handlers of [setupCanvas] and [setupEventListeners] *)

(** The resize handler, from the container's [rect.width]. *)
Definition onResize (rectWidth : R) : M unit :=
  assign (set_canvas (mkCanvas (rectWidth - 40) 600)) ;;
  render.

(** The mouse handlers; the cursor style they set is not modelled. *)
Definition onMouseDown (offsetX offsetY : R) : M unit :=
  assign (set_isDragging true) ;;
  assign (set_lastMouseX offsetX) ;;
  assign (set_lastMouseY offsetY).

Definition onMouseMove (offsetX offsetY : R) : M unit :=
  dragging <- get isDragging ;;
  if dragging then
    lx <- get lastMouseX ;;
    ly <- get lastMouseY ;;
    let dx := offsetX - lx in
    let dy := offsetY - ly in
    px <- get panX ;;
    assign (set_panX (px + dx)) ;;
    py <- get panY ;;
    assign (set_panY (py + dy)) ;;
    assign (set_lastMouseX offsetX) ;;
    assign (set_lastMouseY offsetY) ;;
    render
  else ret tt.

Definition onMouseUp : M unit := assign (set_isDragging false).

Definition onMouseLeave : M unit := assign (set_isDragging false).

Definition onWheel (deltaY : R) : M unit :=
  let zoomFactor := if deltaY >? 0 then 0.9 else 1.1 in
  z <- get zoom ;;
  assign (set_zoom (z * zoomFactor)) ;;
  z <- get zoom ;;
  assign (set_zoom (Rmax 0.5 (Rmin 5 z))) ;;
  render.

Definition onZoomIn : M unit :=
  z <- get zoom ;;
  assign (set_zoom (Rmin 5 (z * 1.2))) ;;
  render.

Definition onZoomOut : M unit :=
  z <- get zoom ;;
  assign (set_zoom (Rmax 0.5 (z / 1.2))) ;;
  render.

(** ** Construction and runs *)

(** [new StarMap(canvasId)]: [rectWidth] is the width of the canvas
    container and [random] the values [Math.random] returns.  The fields
    are assigned in the order of the constructor; [setupCanvas] sizes the
    canvas, whose size before that is never read. *)
Definition newStarMap (rectWidth : R) (random : nat -> R) : StarMap :=
  let catalog := generateStarCatalog random in
  let this :=
    mkStarMap (mkCanvas (rectWidth - 40) 600) 1 0 0 true false 0 0
              catalog [] [] in
  let lines := eval generateConstellationLines this in
  mkStarMap (canvas this) (zoom this) (panX this) (panY this)
            (showConstellations this) (isDragging this)
            (lastMouseX this) (lastMouseY this) (stars this)
            (plottedObjects this) lines.

(** What can happen to a constructed map: a DOM event that one of the
    registered listeners handles, or a call of the two methods that
    app.js uses. *)
Inductive Action : Type :=
| MouseDown (offsetX offsetY : R)
| MouseMove (offsetX offsetY : R)
| MouseUp
| MouseLeave
| Wheel (deltaY : R)
| Resize (rectWidth : R)
| ClickReset
| ClickToggleConstellations
| ClickZoomIn
| ClickZoomOut
| PlotObject (name : string) (ra dec : R) (type : option string)
| ClearPlottedObjects.

Definition perform (a : Action) : M unit :=
  match a with
  | MouseDown ox oy => onMouseDown ox oy
  | MouseMove ox oy => onMouseMove ox oy
  | MouseUp => onMouseUp
  | MouseLeave => onMouseLeave
  | Wheel d => onWheel d
  | Resize rw => onResize rw
  | ClickReset => resetView
  | ClickToggleConstellations => toggleConstellations
  | ClickZoomIn => onZoomIn
  | ClickZoomOut => onZoomOut
  | PlotObject n r d t => plotObject n r d t
  | ClearPlottedObjects => clearPlottedObjects
  end.

(** The state after a sequence of actions, first action first. *)
Definition run (actions : list Action) (this : StarMap) : StarMap :=
  fold_left (fun s a => exec (perform a) s) actions this.

(** ** What [render] paints *)

(** The body of [render()] as the calls it makes on the 2D context
    [this.ctx], in order.  A colour written as an [rgba(...)] string,
    literal or built by a template, is kept as its four numbers; any other
    style is kept as its string. *)
Module Paint.

Inductive Style : Type :=
| Css (colour : string)
| Rgba (red green blue alpha : R).

(** An assignment to a property of the context, or a call of one of its
    methods ([AddColorStop] is called on the gradient the context made). *)
Inductive Call : Type :=
| SetFillStyle (style : Style)
| SetStrokeStyle (style : Style)
| SetLineWidth (lineWidth : R)
| SetGlobalAlpha (alpha : R)
| SetFont (font : string)
| FillRect (x y w h : R)
| CreateRadialGradient (x0 y0 r0 x1 y1 r1 : R)
| AddColorStop (offset : R) (colour : Style)
| BeginPath
| MoveTo (x y : R)
| LineTo (x y : R)
| Arc (x y radius startAngle endAngle : R)
| Stroke
| Fill
| Save
| Restore
| Translate (x y : R)
| FillText (text : string) (x y : R).

(** Calls made one after the other. *)
Definition emit (calls : list Call) : M (list Call) := ret calls.

Definition andThen (m1 m2 : M (list Call)) : M (list Call) :=
  c1 <- m1 ;;
  c2 <- m2 ;;
  ret (c1 ++ c2).

(** [items.forEach(body)]. *)
Fixpoint forEach {A : Type} (items : list A) (body : A -> M (list Call))
    : M (list Call) :=
  match items with
  | [] => ret []
  | item :: rest => andThen (body item) (forEach rest body)
  end.

(** [a || b] on two tests, the second made only when the first fails. *)
Definition orElse (a b : M bool) : M bool :=
  va <- a ;;
  if va then ret true else b.

(** The size, the opacity and the blue component of the disc of a star of
    magnitude [mag]. *)
Definition starSize (mag : R) : R := Rmax 0.5 ((6 - mag) * 0.8).
Definition starAlpha (mag : R) : R := Rmax 0.3 (1 - (mag - 0) / 5).
Definition starBlue (mag : R) : R := 255 - Rmax 0 mag * 40.

(** The test [star.mag < 1.5 && star.name && !star.name.startsWith('Star_')]
    for a label. *)
Definition isLabelled (star : Star) : bool :=
  (mag star <? 1.5) && JS.truthy (name star)
  && negb (prefix "Star_" (name star)).

(** The callback of [this.constellations.forEach]. *)
Definition drawLine (line : Line) : M (list Call) :=
  pos1 <- raDecToCanvas (ra (star1 line)) (dec (star1 line)) ;;
  pos2 <- raDecToCanvas (ra (star2 line)) (dec (star2 line)) ;;
  visible <- orElse (isPointVisible pos1) (isPointVisible pos2) ;;
  if visible then
    emit [ BeginPath;
           MoveTo (x pos1) (y pos1);
           LineTo (x pos2) (y pos2);
           Stroke ]
  else emit [].

(** The callback of [this.stars.forEach]. *)
Definition drawStar (star : Star) : M (list Call) :=
  pos <- raDecToCanvas (ra star) (dec star) ;;
  visible <- isPointVisible pos ;;
  if negb visible then emit [] else
  let size := starSize (mag star) in
  let alpha := starAlpha (mag star) in
  andThen
    (emit [ Save;
            Translate (x pos) (y pos);
            SetGlobalAlpha alpha;
            SetFillStyle (Rgba 255 255 (starBlue (mag star)) 1);
            BeginPath;
            Arc 0 0 size 0 (PI * 2);
            Fill;
            Restore ])
    (if isLabelled star then
       emit [ SetFillStyle (Rgba 255 255 255 alpha);
              SetFont "10px sans-serif";
              FillText (name star) (x pos + 5) (y pos - 5) ]
     else emit []).

(** The callback of [this.plottedObjects.forEach]. *)
Definition drawObject (obj : PlottedObject) : M (list Call) :=
  pos <- raDecToCanvas (obj_ra obj) (obj_dec obj) ;;
  visible <- isPointVisible pos ;;
  if negb visible then emit [] else
  emit [ SetFillStyle (Css "#ff6b6b");
         SetStrokeStyle (Css "#ffffff");
         SetLineWidth 2;
         BeginPath;
         Arc (x pos) (y pos) 8 0 (PI * 2);
         Fill;
         Stroke;
         BeginPath;
         MoveTo (x pos - 15) (y pos);
         LineTo (x pos + 15) (y pos);
         MoveTo (x pos) (y pos - 15);
         LineTo (x pos) (y pos + 15);
         Stroke;
         SetFillStyle (Css "#ff6b6b");
         SetFont "bold 12px sans-serif";
         FillText (obj_name obj) (x pos + 12) (y pos - 12) ].

(** [render()]. *)
Definition render : M (list Call) :=
  w <- get (fun this => width (canvas this)) ;;
  h <- get (fun this => height (canvas this)) ;;
  andThen
    (emit [ SetFillStyle (Css "#000000");
            FillRect 0 0 w h;
            CreateRadialGradient 0 0 0 0 0 50;
            AddColorStop 0 (Rgba 255 255 255 1);
            AddColorStop 0.5 (Rgba 255 255 200 0.8);
            AddColorStop 1 (Rgba 255 255 255 0) ])
    (andThen
       (show <- get showConstellations ;;
        if show then
          andThen
            (emit [ SetStrokeStyle (Rgba 102 126 234 0.3); SetLineWidth 1 ])
            (lines <- get constellations ;; forEach lines drawLine)
        else emit [])
       (andThen
          (catalog <- get stars ;; forEach catalog drawStar)
          (objs <- get plottedObjects ;; forEach objs drawObject))).

(** The number of calls of a log that pass a test. *)
Definition countCalls (test : Call -> bool) (log : list Call) : nat :=
  List.length (filter test log).

Definition isStroke (c : Call) : bool :=
  match c with Stroke => true | _ => false end.

Definition isFill (c : Call) : bool :=
  match c with Fill => true | _ => false end.

(** [bracketed depth log]: from [depth] saved states, the log restores as
    many states as it saves, never restores one it did not save, and moves
    the origin or sets the opacity only while a state is saved. *)
Fixpoint bracketed (depth : nat) (log : list Call) : bool :=
  match log with
  | [] => (depth =? 0)%nat
  | Save :: rest => bracketed (S depth) rest
  | Restore :: rest =>
      match depth with
      | O => false
      | S depth' => bracketed depth' rest
      end
  | Translate _ _ :: rest => (0 <? depth)%nat && bracketed depth rest
  | SetGlobalAlpha _ :: rest => (0 <? depth)%nat && bracketed depth rest
  | _ :: rest => bracketed depth rest
  end.

End Paint.

(** ** Views of a state used in the statements *)

(** Whether the point (ra, dec) is drawn within the margin in a state. *)
Definition visibleAt (this : StarMap) (r d : R) : bool :=
  eval (isPointVisible (eval (raDecToCanvas r d) this)) this.

Definition starVisible (this : StarMap) (star : Star) : bool :=
  visibleAt this (ra star) (dec star).

Definition objectVisible (this : StarMap) (obj : PlottedObject) : bool :=
  visibleAt this (obj_ra obj) (obj_dec obj).

Definition lineVisible (this : StarMap) (line : Line) : bool :=
  starVisible this (star1 line) || starVisible this (star2 line).

(** The image of the celestial poles: the canvas centre moved by the
    pan. *)
Definition poleImage (this : StarMap) : Point :=
  mkPoint (width (canvas this) / 2 + panX this)
          (height (canvas this) / 2 + panY this).

(** An action that resizes the canvas. *)
Definition isResize (a : Action) : bool :=
  match a with Resize _ => true | _ => false end.

(** The mouse-move events of a pointer that visits the given offsets. *)
Definition moves (path : list (R * R)) : list Action :=
  map (fun p => MouseMove (fst p) (snd p)) path.

(** A whole number of at most a billion in absolute value: what a mouse
    offset is, and a size at which sums and differences of numbers are
    exact in the code. *)
Definition wholeNumber (v : R) : Prop :=
  exists n : Z, v = IZR n /\ (Z.abs n <= 1000000000)%Z.

(** A pointer path through whole offsets. *)
Definition wholePath (path : list (R * R)) : Prop :=
  Forall (fun p => wholeNumber (fst p) /\ wholeNumber (snd p)) path.

(** ** The projection as the specification words it *)

Module Spec.

(** [project]: [raRad = (ra*15 - 180) * π/180], [decRad] the declination
    in radians, [centerX] and [centerY] half the canvas width and
    height. *)
Definition project (canvasWidth canvasHeight zoom panX panY ra dec : R)
    : Point :=
  let raRad := (ra * 15 - 180) * (PI / 180) in
  let decRad := dec * (PI / 180) in
  let centerX := canvasWidth / 2 in
  let centerY := canvasHeight / 2 in
  mkPoint
    (centerX + panX + sin raRad * cos decRad * canvasWidth * zoom * 0.4)
    (centerY + panY - cos raRad * cos decRad * canvasWidth * zoom * 0.4).

(** Hours of right ascension and degrees to radians. *)
Definition degToRad (d : R) : R := d * (PI / 180).
Definition hoursToRad (h : R) : R := degToRad (h * 15).
Definition radToDeg (r : R) : R := r * (180 / PI).

(** The great-circle distance of two catalog points, in degrees, by the
    spherical law of cosines. *)
Definition angleDegrees (a b : Star) : R :=
  let ra1 := hoursToRad (ra a) in
  let ra2 := hoursToRad (ra b) in
  let dec1 := degToRad (dec a) in
  let dec2 := degToRad (dec b) in
  radToDeg
    (acos (sin dec1 * sin dec2 + cos dec1 * cos dec2 * cos (ra1 - ra2))).

(** A synthetic name carries the prefix of the background points. *)
Definition synthetic (n : string) : Prop := prefix "Star_" n = true.

(** A point within the margin of 50 pixels around a canvas of the given
    size. *)
Definition withinMargin (p : Point) (canvasWidth canvasHeight : R) : Prop :=
  -50 < x p < canvasWidth + 50 /\ -50 < y p < canvasHeight + 50.

End Spec.

(** The centre of the canvas of a map. *)
Definition canvasCenter (this : StarMap) : Point :=
  mkPoint (width (canvas this) / 2) (height (canvas this) / 2).

(** ** Invariants of the view *)

(** The zoom factor lies in the closed interval from 0.5 to 5. *)
Definition zoomInRange (this : StarMap) : Prop := 0.5 <= zoom this <= 5.

(** The number of entries of a plotted-object list that carry a name. *)
Definition countName (n : string) (objs : list PlottedObject) : nat :=
  List.length (filter (fun obj => String.eqb (obj_name obj) n) objs).

(** At most one plotted object per name. *)
Definition onePerName (this : StarMap) : Prop :=
  forall n : string, (countName n (plottedObjects this) <= 1)%nat.

(** ** Comparisons *)

Lemma ltb_true_iff (a b : R) : (a <? b) = true <-> a < b.
Proof.
  unfold JS.ltb. destruct (Rlt_dec a b); split; intros; try easy.
Qed.

Lemma ltb_false_iff (a b : R) : (a <? b) = false <-> b <= a.
Proof.
  unfold JS.ltb. destruct (Rlt_dec a b); split; intros; try easy; lra.
Qed.

Lemma gtb_true_iff (a b : R) : (a >? b) = true <-> b < a.
Proof. unfold JS.gtb. apply ltb_true_iff. Qed.

Lemma gtb_false_iff (a b : R) : (a >? b) = false <-> a <= b.
Proof. unfold JS.gtb. apply ltb_false_iff. Qed.

(** ** The projection *)

(** What a call of [raDecToCanvas] returns and the state it leaves. *)
Lemma raDecToCanvas_run (r d : R) (this : StarMap) :
  raDecToCanvas r d this =
  (mkPoint
     (width (canvas this) / 2 + panX this
      + sin ((r * 15 - 180) * PI / 180) * cos (d * PI / 180)
        * width (canvas this) * zoom this * 0.4)
     (height (canvas this) / 2 + panY this
      - cos ((r * 15 - 180) * PI / 180) * cos (d * PI / 180)
        * width (canvas this) * zoom this * 0.4),
   this).
Proof. reflexivity. Qed.

(** C5: for every (ra, dec) and every state, [raDecToCanvas] returns the
    point of the specification's formula: x = centerX + panX +
    sin(raRad)·cos(decRad)·canvasWidth·zoom·0.4 and y = centerY + panY −
    cos(raRad)·cos(decRad)·canvasWidth·zoom·0.4, with raRad =
    (ra·15 − 180)·π/180, decRad = dec·π/180 and the centre at half the
    canvas width and height. *)
Theorem raDecToCanvas_formula (r d : R) (this : StarMap) :
  eval (raDecToCanvas r d) this =
  Spec.project (width (canvas this)) (height (canvas this))
               (zoom this) (panX this) (panY this) r d.
Proof.
  unfold eval. rewrite raDecToCanvas_run. unfold Spec.project. cbn [fst].
  replace ((r * 15 - 180) * (PI / 180)) with ((r * 15 - 180) * PI / 180)
    by (unfold Rdiv; ring).
  replace (d * (PI / 180)) with (d * PI / 180) by (unfold Rdiv; ring).
  reflexivity.
Qed.

(** At 12 hours the bearing [raRad] is zero. *)
Lemma raRad_noon : (12 * 15 - 180) * PI / 180 = 0.
Proof. unfold Rdiv. ring. Qed.

Lemma decRad_zero : 0 * PI / 180 = 0.
Proof. unfold Rdiv. ring. Qed.

(** The point RA = 12 h, Dec = 0 in any view: straight above the pole,
    at 0.4 canvas widths times the zoom. *)
Lemma raDecToCanvas_noon_point (this : StarMap) :
  eval (raDecToCanvas 12 0) this =
  mkPoint (width (canvas this) / 2 + panX this)
          (height (canvas this) / 2 + panY this
           - width (canvas this) * zoom this * 0.4).
Proof.
  unfold eval. rewrite raDecToCanvas_run. cbn [fst].
  rewrite raRad_noon, decRad_zero, sin_0, cos_0. f_equal; ring.
Qed.

(** C2, as amended: with zoom 1 and no pan, the point RA = 12 h, Dec = 0
    is projected to x = centerX and y = centerY − 0.4·canvasWidth: it is
    centred horizontally and lies 0.4 canvas widths above the centre. *)
Theorem raDecToCanvas_noon_equator (this : StarMap) :
  zoom this = 1 -> panX this = 0 -> panY this = 0 ->
  eval (raDecToCanvas 12 0) this =
  mkPoint (width (canvas this) / 2)
          (height (canvas this) / 2 - 0.4 * width (canvas this)).
Proof.
  intros Hz Hx Hy. rewrite raDecToCanvas_noon_point, Hz, Hx, Hy.
  f_equal; lra.
Qed.

Lemma raDecToCanvas_noon_equator_witness :
  eval (raDecToCanvas 12 0) (newStarMap 840 (fun _ => 0)) =
  mkPoint (width (canvas (newStarMap 840 (fun _ => 0))) / 2)
          (height (canvas (newStarMap 840 (fun _ => 0))) / 2
           - 0.4 * width (canvas (newStarMap 840 (fun _ => 0)))).
Proof.
  apply (raDecToCanvas_noon_equator (newStarMap 840 (fun _ => 0)));
    reflexivity.
Defined.

(** C2, as stated, fails: a fresh map with a canvas of 800 by 600 has
    zoom 1 and no pan, its centre is (400, 300), and the point RA = 12 h,
    Dec = 0 is projected to (400, −20). *)
Lemma raDecToCanvas_noon_equator_not_center :
  let this := newStarMap 840 (fun _ => 0) in
  zoom this = 1 /\ panX this = 0 /\ panY this = 0
  /\ canvasCenter this = mkPoint 400 300
  /\ eval (raDecToCanvas 12 0) this = mkPoint 400 (-20)
  /\ eval (raDecToCanvas 12 0) this <> canvasCenter this.
Proof.
  intros this.
  assert (Hc : canvasCenter this = mkPoint 400 300)
    by (unfold this, canvasCenter; cbn; f_equal; lra).
  assert (Hp : eval (raDecToCanvas 12 0) this = mkPoint 400 (-20))
    by (rewrite raDecToCanvas_noon_point; unfold this; cbn; f_equal; lra).
  repeat split; try reflexivity; try assumption.
  rewrite Hc, Hp. intros Heq. apply (f_equal y) in Heq. cbn [y] in Heq. lra.
Qed.

(** C8: the projection is a function of (ra, dec) and of the viewport
    (zoom, pan, canvas size) alone: two maps that agree on these give the
    same screen point, whatever their other fields, and a call leaves the
    state of the map as it found it. *)
Theorem raDecToCanvas_deterministic (r d : R) (s1 s2 : StarMap) :
  zoom s1 = zoom s2 ->
  panX s1 = panX s2 ->
  panY s1 = panY s2 ->
  width (canvas s1) = width (canvas s2) ->
  height (canvas s1) = height (canvas s2) ->
  eval (raDecToCanvas r d) s1 = eval (raDecToCanvas r d) s2
  /\ exec (raDecToCanvas r d) s1 = s1
  /\ exec (raDecToCanvas r d) s2 = s2.
Proof.
  intros Hz Hx Hy Hw Hh. unfold eval, exec.
  rewrite !raDecToCanvas_run. cbn [fst snd].
  rewrite Hz, Hx, Hy, Hw, Hh. repeat split.
Qed.

Lemma raDecToCanvas_deterministic_witness :
  let s1 := newStarMap 840 (fun _ => 0) in
  let s2 := exec (onMouseDown 10 20) (exec toggleConstellations s1) in
  eval (raDecToCanvas 18.62 38.8) s1 = eval (raDecToCanvas 18.62 38.8) s2
  /\ exec (raDecToCanvas 18.62 38.8) s1 = s1
  /\ exec (raDecToCanvas 18.62 38.8) s2 = s2.
Proof.
  intros s1 s2.
  apply (raDecToCanvas_deterministic 18.62 38.8 s1 s2); reflexivity.
Defined.

(** Where the cosine of the declination is zero the projection does not
    depend on the right ascension.  Over the reals that is the case at 90
    and at −90 degrees; the cosine the code computes there is not zero
    (about 6e-17), which the real numbers of this development do not
    show. *)
Lemma raDecToCanvas_pole (r d : R) (this : StarMap) :
  cos (d * PI / 180) = 0 ->
  eval (raDecToCanvas r d) this =
  mkPoint (width (canvas this) / 2 + panX this)
          (height (canvas this) / 2 + panY this).
Proof.
  intros Hcos. unfold eval. rewrite raDecToCanvas_run. cbn [fst].
  rewrite Hcos. f_equal; ring.
Qed.

(** ** Visibility *)

Lemma isPointVisible_run (pos : Point) (this : StarMap) :
  isPointVisible pos this =
  ((x pos >? -50) && (x pos <? width (canvas this) + 50) &&
   (y pos >? -50) && (y pos <? height (canvas this) + 50), this).
Proof. reflexivity. Qed.

Lemma isPointVisible_true_iff (pos : Point) (this : StarMap) :
  eval (isPointVisible pos) this = true <->
  Spec.withinMargin pos (width (canvas this)) (height (canvas this)).
Proof.
  unfold eval, Spec.withinMargin. rewrite isPointVisible_run. cbn [fst].
  rewrite !andb_true_iff, !ltb_true_iff, !gtb_true_iff. tauto.
Qed.

(** C7: on a canvas of positive width and height, [isPointVisible] is
    true exactly for the points strictly inside the canvas enlarged by 50
    pixels on every side; it is true for the canvas centre and false for
    (−1000, −1000); and its answer does not depend on the zoom factor. *)
Theorem isPointVisible_margin (pos : Point) (this : StarMap) :
  0 < width (canvas this) ->
  0 < height (canvas this) ->
  (eval (isPointVisible pos) this = true <->
   Spec.withinMargin pos (width (canvas this)) (height (canvas this)))
  /\ eval (isPointVisible (canvasCenter this)) this = true
  /\ eval (isPointVisible (mkPoint (-1000) (-1000))) this = false
  /\ (forall z : R,
        eval (isPointVisible pos) (exec (assign (set_zoom z)) this) =
        eval (isPointVisible pos) this).
Proof.
  intros Hw Hh. split; [ apply isPointVisible_true_iff | ].
  split; [ | split ].
  - apply isPointVisible_true_iff. unfold Spec.withinMargin, canvasCenter.
    cbn [x y]. lra.
  - apply not_true_is_false. rewrite isPointVisible_true_iff.
    unfold Spec.withinMargin. cbn [x y]. lra.
  - intros z. reflexivity.
Qed.

Lemma isPointVisible_margin_witness :
  let this := newStarMap 840 (fun _ => 0) in
  let pos := mkPoint 849 (-49) in
  (eval (isPointVisible pos) this = true <->
   Spec.withinMargin pos (width (canvas this)) (height (canvas this)))
  /\ eval (isPointVisible (canvasCenter this)) this = true
  /\ eval (isPointVisible (mkPoint (-1000) (-1000))) this = false
  /\ (forall z : R,
        eval (isPointVisible pos) (exec (assign (set_zoom z)) this) =
        eval (isPointVisible pos) this).
Proof.
  intros this pos.
  apply (isPointVisible_margin pos this); unfold this; cbn; lra.
Defined.

(** ** Clearing the plotted objects *)

(** C10: [clearPlottedObjects] empties the plotted-object list and leaves
    zoom, panX, panY, showConstellations, the star catalog and the
    constellation lines as they were (the canvas and the drag state
    too). *)
Theorem clearPlottedObjects_frame (this : StarMap) :
  let this' := exec clearPlottedObjects this in
  plottedObjects this' = []
  /\ zoom this' = zoom this
  /\ panX this' = panX this
  /\ panY this' = panY this
  /\ showConstellations this' = showConstellations this
  /\ stars this' = stars this
  /\ constellations this' = constellations this
  /\ canvas this' = canvas this
  /\ isDragging this' = isDragging this
  /\ lastMouseX this' = lastMouseX this
  /\ lastMouseY this' = lastMouseY this.
Proof. cbn. repeat split. Qed.

(** ** The zoom factor *)

Lemma zoom_onWheel (deltaY : R) (this : StarMap) :
  zoom (exec (onWheel deltaY) this) =
  Rmax 0.5 (Rmin 5 (zoom this * (if deltaY >? 0 then 0.9 else 1.1))).
Proof. reflexivity. Qed.

Lemma zoom_onZoomIn (this : StarMap) :
  zoom (exec onZoomIn this) = Rmin 5 (zoom this * 1.2).
Proof. reflexivity. Qed.

Lemma zoom_onZoomOut (this : StarMap) :
  zoom (exec onZoomOut this) = Rmax 0.5 (zoom this / 1.2).
Proof. reflexivity. Qed.

Lemma zoom_plotObject (n : string) (r d : R) (t : option string)
    (this : StarMap) :
  zoom (exec (plotObject n r d t) this) = 2.
Proof. reflexivity. Qed.

Lemma zoom_onMouseMove (ox oy : R) (this : StarMap) :
  zoom (exec (onMouseMove ox oy) this) = zoom this.
Proof.
  unfold exec, onMouseMove, bind, get. destruct (isDragging this); reflexivity.
Qed.

(** The clamp of the wheel handler lands in the interval from any zoom. *)
Lemma clamp_in_range (v : R) : 0.5 <= Rmax 0.5 (Rmin 5 v) <= 5.
Proof.
  split.
  - apply Rmax_l.
  - apply Rmax_lub; [ lra | apply Rmin_l ].
Qed.

(** Every action keeps the zoom factor in range. *)
Lemma perform_zoomInRange (a : Action) (this : StarMap) :
  zoomInRange this -> zoomInRange (exec (perform a) this).
Proof.
  unfold zoomInRange. intros [Hlo Hhi].
  destruct a; cbn [perform].
  - cbn. lra.
  - rewrite zoom_onMouseMove. lra.
  - cbn. lra.
  - cbn. lra.
  - rewrite zoom_onWheel. apply clamp_in_range.
  - cbn. lra.
  - cbn. lra.
  - cbn. lra.
  - rewrite zoom_onZoomIn. split.
    + apply Rmin_glb; lra.
    + apply Rmin_l.
  - rewrite zoom_onZoomOut. split.
    + apply Rmax_l.
    + apply Rmax_lub; lra.
  - rewrite zoom_plotObject. lra.
  - cbn. lra.
Qed.

Lemma run_zoomInRange (actions : list Action) (this : StarMap) :
  zoomInRange this -> zoomInRange (run actions this).
Proof.
  revert this. induction actions as [ | a actions IH ]; intros this H.
  - exact H.
  - cbn [run fold_left]. apply IH. apply perform_zoomInRange. exact H.
Qed.

(** C4: from the state the constructor builds (zoom 1), after any finite
    sequence of actions (wheel, the zoom-in and zoom-out buttons,
    [plotObject], [resetView], dragging, and the others) the zoom factor
    lies in the closed interval from 0.5 to 5. *)
Theorem zoom_always_in_range (rectWidth : R) (random : nat -> R)
    (actions : list Action) :
  0.5 <= zoom (run actions (newStarMap rectWidth random)) <= 5.
Proof.
  apply (run_zoomInRange actions (newStarMap rectWidth random)).
  unfold zoomInRange. cbn. lra.
Qed.

(** ** The plotted-object list *)

(** The list [plotObject] leaves: the entries of another name, in their
    order, then the new entry. *)
Lemma plottedObjects_plotObject (n : string) (r d : R) (t : option string)
    (this : StarMap) :
  plottedObjects (exec (plotObject n r d t) this) =
  filter (fun obj => negb (String.eqb (obj_name obj) n)) (plottedObjects this)
  ++ [mkPlotted n r d (match t with Some t' => t' | None => "Object"%string end)].
Proof. reflexivity. Qed.

Lemma plottedObjects_onMouseMove (ox oy : R) (this : StarMap) :
  plottedObjects (exec (onMouseMove ox oy) this) = plottedObjects this.
Proof.
  unfold exec, onMouseMove, bind, get. destruct (isDragging this); reflexivity.
Qed.

Lemma countName_app (n : string) (l1 l2 : list PlottedObject) :
  countName n (l1 ++ l2) = (countName n l1 + countName n l2)%nat.
Proof. unfold countName. rewrite filter_app, length_app. reflexivity. Qed.

(** No entry of the removed name survives the filter of [plotObject]. *)
Lemma countName_removed (n : string) (objs : list PlottedObject) :
  countName n
    (filter (fun obj => negb (String.eqb (obj_name obj) n)) objs) = 0%nat.
Proof.
  unfold countName. induction objs as [ | o objs IH ]; [ reflexivity | ].
  cbn [filter]. destruct (String.eqb (obj_name o) n) eqn:E; cbn [negb].
  - exact IH.
  - cbn [filter]. rewrite E. exact IH.
Qed.

Lemma countName_filter_le (n : string) (f : PlottedObject -> bool)
    (objs : list PlottedObject) :
  (countName n (filter f objs) <= countName n objs)%nat.
Proof.
  unfold countName. induction objs as [ | o objs IH ]; [ apply Nat.le_refl | ].
  cbn [filter]. destruct (f o); cbn [filter];
    destruct (String.eqb (obj_name o) n); cbn [List.length]; lia.
Qed.

Lemma countName_single_other (n m : string) (r d : R) (t : string) :
  m <> n -> countName m [mkPlotted n r d t] = 0%nat.
Proof.
  intros Hne. unfold countName. cbn [filter obj_name].
  destruct (String.eqb_spec n m) as [ E | _ ]; [ | reflexivity ].
  exfalso. apply Hne. symmetry. exact E.
Qed.

Lemma countName_single_same (n : string) (r d : R) (t : string) :
  countName n [mkPlotted n r d t] = 1%nat.
Proof.
  unfold countName. cbn [filter obj_name]. rewrite String.eqb_refl. reflexivity.
Qed.

(** After [plotObject] the list holds exactly one entry of the plotted
    name, whatever it held before. *)
Lemma plotObject_exactly_one (n : string) (r d : R) (t : option string)
    (this : StarMap) :
  countName n (plottedObjects (exec (plotObject n r d t) this)) = 1%nat.
Proof.
  rewrite plottedObjects_plotObject, countName_app, countName_removed.
  apply countName_single_same.
Qed.

(** The entry of the plotted name is the one of the call. *)
Lemma plotObject_entry (n : string) (r d : R) (t : option string)
    (this : StarMap) (obj : PlottedObject) :
  In obj (plottedObjects (exec (plotObject n r d t) this)) ->
  obj_name obj = n ->
  obj_ra obj = r /\ obj_dec obj = d.
Proof.
  rewrite plottedObjects_plotObject. intros Hin Hname.
  apply in_app_or in Hin. destruct Hin as [ Hold | Hnew ].
  - apply filter_In in Hold. destruct Hold as [ _ Hkeep ].
    rewrite Hname, String.eqb_refl in Hkeep. discriminate Hkeep.
  - destruct Hnew as [ <- | [] ]. split; reflexivity.
Qed.

Lemma plotObject_onePerName (n : string) (r d : R) (t : option string)
    (this : StarMap) :
  onePerName this -> onePerName (exec (plotObject n r d t) this).
Proof.
  intros Hone m. destruct (string_dec m n) as [ -> | Hne ].
  - rewrite plotObject_exactly_one. apply Nat.le_refl.
  - rewrite plottedObjects_plotObject, countName_app.
    rewrite countName_single_other by exact Hne.
    rewrite Nat.add_0_r.
    eapply Nat.le_trans; [ apply countName_filter_le | apply Hone ].
Qed.

(** Every action keeps the list at one entry per name at most. *)
Lemma perform_onePerName (a : Action) (this : StarMap) :
  onePerName this -> onePerName (exec (perform a) this).
Proof.
  intros Hone. destruct a; cbn [perform];
    try (intros m; exact (Hone m)).
  - intros m. rewrite plottedObjects_onMouseMove. apply Hone.
  - apply plotObject_onePerName. exact Hone.
  - intros m. cbn. apply Nat.le_0_l.
Qed.

Lemma newStarMap_onePerName (rectWidth : R) (random : nat -> R) :
  onePerName (newStarMap rectWidth random).
Proof. intros m. cbn. apply Nat.le_0_l. Qed.

(** In every state a constructed map reaches, the list holds at most one
    entry per name. *)
Lemma run_onePerName (actions : list Action) (this : StarMap) :
  onePerName this -> onePerName (run actions this).
Proof.
  revert this. induction actions as [ | a actions IH ]; intros this H.
  - exact H.
  - cbn [run fold_left]. apply IH. apply perform_onePerName. exact H.
Qed.

(** C6: the plotted-object list holds at most one entry per name.  From a
    state that has the property, every action leads to a state that has
    it; and after [plotObject(name, ra, dec, type)] exactly one entry
    carries that name, with the coordinates of that call. *)
Theorem plottedObjects_one_per_name (this : StarMap) :
  onePerName this ->
  (forall a : Action, onePerName (exec (perform a) this))
  /\ (forall (n : string) (r d : R) (t : option string),
        let this' := exec (plotObject n r d t) this in
        countName n (plottedObjects this') = 1%nat
        /\ (forall obj : PlottedObject,
              In obj (plottedObjects this') -> obj_name obj = n ->
              obj_ra obj = r /\ obj_dec obj = d)).
Proof.
  intros Hone. split.
  - intros a. apply perform_onePerName. exact Hone.
  - intros n r d t this'. split.
    + apply plotObject_exactly_one.
    + apply plotObject_entry.
Qed.

Lemma plottedObjects_one_per_name_witness :
  let this :=
    exec (plotObject "Vega" 18 38 (Some "Star"%string))
         (newStarMap 840 (fun _ => 0)) in
  (forall a : Action, onePerName (exec (perform a) this))
  /\ (forall (n : string) (r d : R) (t : option string),
        let this' := exec (plotObject n r d t) this in
        countName n (plottedObjects this') = 1%nat
        /\ (forall obj : PlottedObject,
              In obj (plottedObjects this') -> obj_name obj = n ->
              obj_ra obj = r /\ obj_dec obj = d)).
Proof.
  intros this.
  apply (plottedObjects_one_per_name this).
  intros m. unfold this. rewrite plottedObjects_plotObject.
  change (plottedObjects (newStarMap 840 (fun _ => 0)))
    with (@nil PlottedObject).
  unfold countName. cbn [filter app obj_name].
  destruct (String.eqb "Vega" m); cbn [List.length]; lia.
Defined.

(** ** The constellation graph *)

(** The distance the code computes is the great-circle distance of the
    specification. *)
Lemma angularDist_angleDegrees (s1 s2 : Star) :
  angularDist s1 s2 = Spec.angleDegrees s1 s2.
Proof.
  unfold angularDist, Spec.angleDegrees, Spec.radToDeg, Spec.hoursToRad,
    Spec.degToRad.
  replace (ra s1 * 15 * PI / 180) with (ra s1 * 15 * (PI / 180))
    by (unfold Rdiv; ring).
  replace (ra s2 * 15 * PI / 180) with (ra s2 * 15 * (PI / 180))
    by (unfold Rdiv; ring).
  replace (dec s1 * PI / 180) with (dec s1 * (PI / 180))
    by (unfold Rdiv; ring).
  replace (dec s2 * PI / 180) with (dec s2 * (PI / 180))
    by (unfold Rdiv; ring).
  unfold Rdiv. ring.
Qed.

(** The distance does not depend on the order of the pair. *)
Lemma angleDegrees_sym (a b : Star) :
  Spec.angleDegrees a b = Spec.angleDegrees b a.
Proof.
  unfold Spec.angleDegrees. cbv zeta. f_equal. f_equal.
  rewrite <- (cos_neg (Spec.hoursToRad (ra a) - Spec.hoursToRad (ra b))).
  replace (- (Spec.hoursToRad (ra a) - Spec.hoursToRad (ra b)))
    with (Spec.hoursToRad (ra b) - Spec.hoursToRad (ra a)) by ring.
  ring.
Qed.

(** Two points of the equator are as far apart as their right
    ascensions. *)
Lemma angularDist_equator (n1 n2 : string) (r1 r2 m1 m2 : R) :
  0 <= (r1 - r2) * 15 <= 180 ->
  angularDist (mkStar n1 r1 0 m1) (mkStar n2 r2 0 m2) = (r1 - r2) * 15.
Proof.
  intros [Hlo Hhi]. unfold angularDist. cbn [ra dec].
  rewrite decRad_zero, sin_0, cos_0.
  replace (0 * 0 + 1 * 1 * cos (r1 * 15 * PI / 180 - r2 * 15 * PI / 180))
    with (cos ((r1 - r2) * 15 * PI / 180))
    by (rewrite Rmult_0_l, Rplus_0_l, !Rmult_1_l; f_equal; unfold Rdiv; ring).
  assert (HPI : 0 < PI) by apply PI_RGT_0.
  rewrite acos_cos.
  - field. lra.
  - split.
    + unfold Rdiv. apply Rmult_le_pos; [ apply Rmult_le_pos | ]; lra.
    + replace PI with (180 * PI / 180) at 2 by (unfold Rdiv; field).
      unfold Rdiv. apply Rmult_le_compat_r; [ lra | ].
      apply Rmult_le_compat_r; lra.
Qed.

Lemma isBrightStar_true_iff (s : Star) :
  isBrightStar s = true <->
  mag s < 2.0 /\ name s <> ""%string /\ prefix "Star_" (name s) = false.
Proof.
  unfold isBrightStar.
  rewrite !andb_true_iff, ltb_true_iff, negb_true_iff.
  assert (Ht : JS.truthy (name s) = true <-> name s <> ""%string).
  { destruct (name s); cbn; split; intros H; try easy. }
  rewrite Ht. tauto.
Qed.

(** The inner loop pairs [s1] with later entries less than 30 degrees
    away. *)
Lemma linesFrom_In (s1 : Star) (rest : list Star) (l : Line) :
  In l (linesFrom s1 rest) <->
  star1 l = s1 /\ In (star2 l) rest /\ angularDist s1 (star2 l) < 30.
Proof.
  induction rest as [ | s2 rest IH ]; cbn [linesFrom].
  - cbn. tauto.
  - destruct (angularDist s1 s2 <? 30) eqn:E.
    + apply ltb_true_iff in E. cbn [In]. rewrite IH. split.
      * intros [ <- | (H1 & H2 & H3) ]; cbn [star1 star2]; auto.
      * intros (H1 & [ H2 | H2 ] & H3); [ left | right; auto ].
        destruct l as [a b]. cbn [star1 star2] in *. congruence.
    + apply ltb_false_iff in E. rewrite IH. cbn [In]. split.
      * intros (H1 & H2 & H3). auto.
      * intros (H1 & [ H2 | H2 ] & H3); [ | auto ].
        subst s2. lra.
Qed.

Lemma linesAmong_In (brightStars : list Star) (l : Line) :
  In l (linesAmong brightStars) ->
  In (star1 l) brightStars /\ In (star2 l) brightStars
  /\ angularDist (star1 l) (star2 l) < 30.
Proof.
  induction brightStars as [ | s1 rest IH ]; cbn [linesAmong].
  - intros [].
  - intros H. apply in_app_or in H. destruct H as [ H | H ].
    + apply linesFrom_In in H. destruct H as (H1 & H2 & H3).
      rewrite H1. cbn [In]. auto.
    + destruct (IH H) as (H1 & H2 & H3). cbn [In]. auto.
Qed.

Lemma generateConstellationLines_run (this : StarMap) :
  generateConstellationLines this =
  (linesAmong (filter isBrightStar (stars this)), this).
Proof. reflexivity. Qed.

(** C3: every edge of the constellation graph joins two points of the
    catalog, each of magnitude below 2.0 and with a name that does not
    start with Star_, whose great-circle distance (spherical law of
    cosines, right ascension in hours times 15 degrees, and declination in
    degrees, both turned to radians) is strictly less than 30 degrees; so
    no pair at 30 degrees or more is joined. *)
Theorem generateConstellationLines_edges (this : StarMap) (l : Line) :
  In l (eval generateConstellationLines this) ->
  (In (star1 l) (stars this) /\ In (star2 l) (stars this))
  /\ (mag (star1 l) < 2.0 /\ mag (star2 l) < 2.0)
  /\ (~ Spec.synthetic (name (star1 l)) /\ ~ Spec.synthetic (name (star2 l)))
  /\ Spec.angleDegrees (star1 l) (star2 l) < 30
  /\ ~ (Spec.angleDegrees (star1 l) (star2 l) >= 30).
Proof.
  unfold eval. rewrite generateConstellationLines_run. cbn [fst].
  intros H. apply linesAmong_In in H. destruct H as (H1 & H2 & H3).
  apply filter_In in H1. destruct H1 as [ H1 B1 ].
  apply filter_In in H2. destruct H2 as [ H2 B2 ].
  apply isBrightStar_true_iff in B1. destruct B1 as (M1 & _ & P1).
  apply isBrightStar_true_iff in B2. destruct B2 as (M2 & _ & P2).
  rewrite angularDist_angleDegrees in H3.
  unfold Spec.synthetic. rewrite P1, P2.
  repeat split; auto; try discriminate. lra.
Qed.

Lemma generateConstellationLines_edges_witness :
  let a := mkStar "A" 1 0 1 in
  let b := mkStar "B" 0 0 1.5 in
  let c := mkStar "Star_0" 0.5 0 1 in
  let this := mkStarMap (mkCanvas 800 600) 1 0 0 true false 0 0 [a; c; b] [] [] in
  let l := mkLine a b in
  (In (star1 l) (stars this) /\ In (star2 l) (stars this))
  /\ (mag (star1 l) < 2.0 /\ mag (star2 l) < 2.0)
  /\ (~ Spec.synthetic (name (star1 l)) /\ ~ Spec.synthetic (name (star2 l)))
  /\ Spec.angleDegrees (star1 l) (star2 l) < 30
  /\ ~ (Spec.angleDegrees (star1 l) (star2 l) >= 30).
Proof.
  intros a b c this l.
  apply (generateConstellationLines_edges this l).
  unfold eval. rewrite generateConstellationLines_run. cbn [fst].
  unfold this. cbn [stars filter].
  assert (Ha : isBrightStar a = true).
  { apply isBrightStar_true_iff. unfold a. cbn. repeat split; [ lra | discriminate ]. }
  assert (Hb : isBrightStar b = true).
  { apply isBrightStar_true_iff. unfold b. cbn. repeat split; [ lra | discriminate ]. }
  assert (Hc : isBrightStar c = false).
  { unfold isBrightStar, c. cbn [name]. 
    replace (prefix "Star_" "Star_0") with true by reflexivity.
    cbn [negb]. apply andb_false_r. }
  rewrite Ha, Hb, Hc. cbn [linesAmong linesFrom].
  assert (Hd : (angularDist a b <? 30) = true).
  { apply ltb_true_iff. unfold a, b. rewrite angularDist_equator; lra. }
  rewrite Hd. left. reflexivity.
Defined.

(** No pair whose distance is 30 degrees or more is joined, in either
    order. *)
Lemma generateConstellationLines_far_apart (this : StarMap) (a b : Star) :
  30 <= Spec.angleDegrees a b ->
  ~ In (mkLine a b) (eval generateConstellationLines this)
  /\ ~ In (mkLine b a) (eval generateConstellationLines this).
Proof.
  intros Hfar. split; intros H; unfold eval in H;
    rewrite generateConstellationLines_run in H; cbn [fst] in H;
    apply linesAmong_In in H; destruct H as (_ & _ & H);
    rewrite angularDist_angleDegrees in H; cbn [star1 star2] in H.
  - lra.
  - rewrite angleDegrees_sym in H. lra.
Qed.

(** ** Recentring by [plotObject] *)

(** The pan [plotObject] leaves is computed from the position of the
    object under the pan and the zoom the call found. *)
Lemma pan_plotObject (n : string) (r d : R) (t : option string)
    (this : StarMap) :
  let pos := eval (raDecToCanvas r d) this in
  let this' := exec (plotObject n r d t) this in
  panX this' = - x pos + width (canvas this) / 2
  /\ panY this' = - y pos + height (canvas this) / 2
  /\ canvas this' = canvas this.
Proof. cbn. repeat split. Qed.

(** Where the plotted object is drawn after the call: off the centre by
    the pan the call found and by the step from the old zoom to 2. *)
Lemma plotObject_position (n : string) (r d : R) (t : option string)
    (this : StarMap) :
  let raRad := (r * 15 - 180) * PI / 180 in
  let cosDec := cos (d * PI / 180) in
  let w := width (canvas this) in
  eval (raDecToCanvas r d) (exec (plotObject n r d t) this) =
  mkPoint
    (w / 2 - panX this + sin raRad * cosDec * w * 0.4 * (2 - zoom this))
    (height (canvas this) / 2 - panY this
     - cos raRad * cosDec * w * 0.4 * (2 - zoom this)).
Proof.
  intros raRad cosDec w. unfold eval at 1. rewrite raDecToCanvas_run.
  cbn [fst]. rewrite zoom_plotObject.
  destruct (pan_plotObject n r d t this) as (Hx & Hy & Hc).
  rewrite Hx, Hy, Hc. unfold eval. rewrite raDecToCanvas_run.
  cbn [fst x y]. fold raRad cosDec w. f_equal; field.
Qed.

(** The call does centre the object when it finds the view at zoom 2 with
    no pan. *)
Lemma plotObject_centered_from_zoom2 (n : string) (r d : R)
    (t : option string) (this : StarMap) :
  zoom this = 2 -> panX this = 0 -> panY this = 0 ->
  eval (raDecToCanvas r d) (exec (plotObject n r d t) this) =
  canvasCenter (exec (plotObject n r d t) this).
Proof.
  intros Hz Hx Hy. rewrite plotObject_position. cbv zeta.
  rewrite Hz, Hx, Hy. unfold canvasCenter.
  destruct (pan_plotObject n r d t this) as (_ & _ & Hc). rewrite Hc.
  f_equal; field.
Qed.

(** The bearing and the declination of Vega. *)
Lemma vega_sin_raRad_pos : 0 < sin ((18.62 * 15 - 180) * PI / 180).
Proof.
  assert (HPI : 0 < PI) by apply PI_RGT_0.
  apply sin_gt_0; unfold Rdiv; lra.
Qed.

Lemma vega_cosDec_pos : 0 < cos (38.8 * PI / 180).
Proof.
  assert (HPI : 0 < PI) by apply PI_RGT_0.
  apply cos_gt_0; unfold Rdiv; lra.
Qed.

(** C1 on a fresh map with a canvas of 800 by 600:
    [plotObject("Vega", 18.62, 38.8, "Star")] leaves the zoom at 2, and
    Vega is then projected to the right of the canvas centre, not on
    it. *)
Theorem plotObject_vega_off_center :
  let this :=
    exec (plotObject "Vega" 18.62 38.8 (Some "Star"%string))
         (newStarMap 840 (fun _ => 0)) in
  zoom this = 2
  /\ x (canvasCenter this) < x (eval (raDecToCanvas 18.62 38.8) this)
  /\ eval (raDecToCanvas 18.62 38.8) this <> canvasCenter this.
Proof.
  intros this.
  assert (Hpos : x (canvasCenter this) < x (eval (raDecToCanvas 18.62 38.8) this)).
  { unfold this. rewrite plotObject_position. cbv zeta.
    unfold canvasCenter.
    destruct (pan_plotObject "Vega" 18.62 38.8 (Some "Star"%string)
                (newStarMap 840 (fun _ => 0))) as (_ & _ & Hcanvas).
    rewrite Hcanvas.
    change (canvas (newStarMap 840 (fun _ => 0))) with (mkCanvas (840 - 40) 600).
    change (zoom (newStarMap 840 (fun _ => 0))) with 1.
    change (panX (newStarMap 840 (fun _ => 0))) with 0.
    cbn [x width].
    assert (Hsc : 0 < sin ((18.62 * 15 - 180) * PI / 180) * cos (38.8 * PI / 180))
      by (apply Rmult_lt_0_compat;
          [ apply vega_sin_raRad_pos | apply vega_cosDec_pos ]).
    set (sc := sin ((18.62 * 15 - 180) * PI / 180) * cos (38.8 * PI / 180)) in *.
    lra. }
  split; [ reflexivity | split; [ exact Hpos | ] ].
  intros Heq. rewrite Heq in Hpos. lra.
Qed.

(** A second input with exact values: from a fresh map with a canvas of
    800 by 600, plotting a point at RA = 18 h, Dec = 0 leaves it drawn at
    (720, 300), 320 pixels to the right of the centre (400, 300). *)
Lemma plotObject_equator_off_center :
  let this :=
    exec (plotObject "East" 18 0 None) (newStarMap 840 (fun _ => 0)) in
  eval (raDecToCanvas 18 0) this = mkPoint 720 300
  /\ canvasCenter this = mkPoint 400 300.
Proof.
  intros this. split.
  - unfold this. rewrite plotObject_position. cbv zeta.
    change (canvas (newStarMap 840 (fun _ => 0))) with (mkCanvas (840 - 40) 600).
    change (zoom (newStarMap 840 (fun _ => 0))) with 1.
    change (panX (newStarMap 840 (fun _ => 0))) with 0.
    change (panY (newStarMap 840 (fun _ => 0))) with 0.
    cbn [width height].
    replace ((18 * 15 - 180) * PI / 180) with (PI / 2) by (unfold Rdiv; field).
    rewrite decRad_zero, sin_PI2, cos_PI2, cos_0. f_equal; lra.
  - unfold this, canvasCenter. cbn. f_equal; lra.
Qed.

(** ** The graph of a constructed map *)

Lemma prefix_append (p s : string) : prefix p (p ++ s) = true.
Proof.
  induction p as [ | c p IH ]; cbn.
  - destruct s; reflexivity.
  - destruct (Ascii.ascii_dec c c) as [ _ | Hne ]; [ exact IH | ].
    exfalso. apply Hne. reflexivity.
Qed.

(** The background points all carry a synthetic name. *)
Lemma generateRandomStars_synthetic (random : nat -> R) (count : nat)
    (minMag maxMag : R) (s : Star) :
  In s (generateRandomStars random count minMag maxMag) ->
  Spec.synthetic (name s).
Proof.
  unfold generateRandomStars. intros H. apply in_map_iff in H.
  destruct H as (i & <- & _). cbn [name]. apply prefix_append.
Qed.

Lemma constellations_newStarMap (rectWidth : R) (random : nat -> R) :
  constellations (newStarMap rectWidth random) =
  linesAmong (filter isBrightStar (generateStarCatalog random)).
Proof. reflexivity. Qed.

(** The graph the constructor builds joins literal entries of the catalog
    only, less than 30 degrees apart. *)
Lemma newStarMap_constellations (rectWidth : R) (random : nat -> R)
    (l : Line) :
  In l (constellations (newStarMap rectWidth random)) ->
  In (star1 l) brightestStars /\ In (star2 l) brightestStars
  /\ Spec.angleDegrees (star1 l) (star2 l) < 30.
Proof.
  rewrite constellations_newStarMap. intros H.
  apply linesAmong_In in H. destruct H as (H1 & H2 & H3).
  rewrite angularDist_angleDegrees in H3.
  assert (Hnamed : forall s : Star,
            In s (filter isBrightStar (generateStarCatalog random)) ->
            In s brightestStars).
  { intros s Hs. apply filter_In in Hs. destruct Hs as [ Hin Hb ].
    unfold generateStarCatalog in Hin. apply in_app_or in Hin.
    destruct Hin as [ Hin | Hin ]; [ exact Hin | ].
    apply generateRandomStars_synthetic in Hin. unfold Spec.synthetic in Hin.
    apply isBrightStar_true_iff in Hb. destruct Hb as (_ & _ & Hp).
    rewrite Hin in Hp. discriminate Hp. }
  auto.
Qed.

(** No action assigns the catalog or the graph. *)
Lemma perform_catalog_frame (a : Action) (this : StarMap) :
  stars (exec (perform a) this) = stars this
  /\ constellations (exec (perform a) this) = constellations this.
Proof.
  destruct a; cbn [perform]; try (split; reflexivity).
  unfold exec, onMouseMove, bind, get.
  destruct (isDragging this); split; reflexivity.
Qed.

Lemma run_catalog_frame (actions : list Action) (this : StarMap) :
  stars (run actions this) = stars this
  /\ constellations (run actions this) = constellations this.
Proof.
  revert this. induction actions as [ | a actions IH ]; intros this.
  - split; reflexivity.
  - cbn [run fold_left]. destruct (IH (exec (perform a) this)) as [ Hs Hc ].
    destruct (perform_catalog_frame a this) as [ Hs' Hc' ].
    unfold run in Hs, Hc. rewrite Hs, Hc, Hs', Hc'. split; reflexivity.
Qed.

(** ** The shape of the projection *)

(** The offsets of a projected point from the image of the poles. *)
Lemma raDecToCanvas_offset (r d : R) (this : StarMap) :
  let p := eval (raDecToCanvas r d) this in
  let k := cos (d * PI / 180) * (0.4 * width (canvas this) * zoom this) in
  x p - x (poleImage this) = sin ((r * 15 - 180) * PI / 180) * k
  /\ y p - y (poleImage this) = - cos ((r * 15 - 180) * PI / 180) * k.
Proof.
  intros p k. unfold p, k, eval, poleImage. rewrite raDecToCanvas_run.
  cbn [fst x y]. split; ring.
Qed.

Lemma decRad_opp (d : R) : - d * PI / 180 = - (d * PI / 180).
Proof. unfold Rdiv. ring. Qed.

(** X2: the projection does not tell the two hemispheres apart:
    (ra, −dec) is drawn where (ra, dec) is, in every state. *)
Theorem raDecToCanvas_folds (r d : R) (this : StarMap) :
  eval (raDecToCanvas r (- d)) this = eval (raDecToCanvas r d) this.
Proof.
  unfold eval. rewrite !raDecToCanvas_run. cbn [fst].
  rewrite decRad_opp, cos_neg. reflexivity.
Qed.

Lemma visibleAt_true_iff (this : StarMap) (r d : R) :
  visibleAt this r d = true <->
  Spec.withinMargin (eval (raDecToCanvas r d) this)
                    (width (canvas this)) (height (canvas this)).
Proof. unfold visibleAt. apply isPointVisible_true_iff. Qed.

(** X3: nothing is culled when the disc of the sky fits in the margin
    with a pixel to spare: for a zoom in [0.5, 5], a canvas of at most
    100000 by 100000 and coordinates of at most a million in absolute
    value, if the disc of radius 0.4·canvasWidth·zoom around the image of
    the poles stays at least 49 pixels inside the canvas enlarged by 50
    pixels on every side, every (ra, dec) passes [isPointVisible].  The
    bounds keep the arithmetic of the code away from overflow, and the
    spare pixel away from the rounding of the comparisons. *)
Theorem sky_disc_visible (this : StarMap) (r d : R) :
  let radius := 0.4 * width (canvas this) * zoom this in
  0.5 <= zoom this <= 5 ->
  0 <= width (canvas this) <= 100000 ->
  0 <= height (canvas this) <= 100000 ->
  -1000000 <= r <= 1000000 ->
  -1000000 <= d <= 1000000 ->
  -49 <= x (poleImage this) - radius ->
  x (poleImage this) + radius <= width (canvas this) + 49 ->
  -49 <= y (poleImage this) - radius ->
  y (poleImage this) + radius <= height (canvas this) + 49 ->
  visibleAt this r d = true.
Proof.
  intros radius Hz Hw Hh _ _ Hx1 Hx2 Hy1 Hy2. apply visibleAt_true_iff.
  assert (Hr : 0 <= radius) by (unfold radius; nra).
  destruct (raDecToCanvas_offset r d this) as [Hx Hy].
  fold radius in Hx, Hy. cbv zeta in Hx, Hy.
  set (p := eval (raDecToCanvas r d) this) in *.
  pose proof (SIN_bound ((r * 15 - 180) * PI / 180)) as [Hs1 Hs2].
  pose proof (COS_bound ((r * 15 - 180) * PI / 180)) as [Hc1 Hc2].
  pose proof (COS_bound (d * PI / 180)) as [Hd1 Hd2].
  set (s := sin ((r * 15 - 180) * PI / 180)) in *.
  set (c := cos ((r * 15 - 180) * PI / 180)) in *.
  set (cd := cos (d * PI / 180)) in *.
  assert (Hk : - radius <= cd * radius <= radius) by nra.
  set (k := cd * radius) in *.
  assert (Hsk : - radius <= s * k <= radius) by nra.
  assert (Hck : - radius <= - c * k <= radius) by nra.
  unfold Spec.withinMargin. lra.
Qed.

Lemma sky_disc_visible_witness :
  visibleAt (newStarMap 840 (fun _ => 0)) 18.62 38.8 = true.
Proof.
  apply (sky_disc_visible (newStarMap 840 (fun _ => 0)) 18.62 38.8);
    cbn; lra.
Defined.

(** ** Dragging *)

Lemma onMouseMove_dragging (ox oy : R) (this : StarMap) :
  isDragging this = true ->
  exec (onMouseMove ox oy) this =
  mkStarMap (canvas this) (zoom this)
            (panX this + (ox - lastMouseX this))
            (panY this + (oy - lastMouseY this))
            (showConstellations this) true ox oy
            (stars this) (plottedObjects this) (constellations this).
Proof.
  destruct this as [cv z px py sc dr lx ly st po cs]. cbn [isDragging].
  intros ->. reflexivity.
Qed.

Lemma onMouseMove_idle (ox oy : R) (this : StarMap) :
  isDragging this = false -> exec (onMouseMove ox oy) this = this.
Proof.
  intros Hd. unfold exec, onMouseMove, bind, get. rewrite Hd. reflexivity.
Qed.

Lemma run_cons (a : Action) (actions : list Action) (this : StarMap) :
  run (a :: actions) this = run actions (exec (perform a) this).
Proof. reflexivity. Qed.

Lemma last_cons {A : Type} (a d : A) (l : list A) :
  last (a :: l) d = last l a.
Proof.
  revert a d. induction l as [ | b l IH ]; intros a d; [ reflexivity | ].
  change (last (a :: b :: l) d) with (last (b :: l) d).
  rewrite (IH b d), (IH b a). reflexivity.
Qed.

(** While the button is held, a run of moves adds to the pan the way from
    the last recorded offset to the last offset visited. *)
Lemma run_moves_dragging (path : list (R * R)) (this : StarMap) :
  isDragging this = true ->
  let q := last path (lastMouseX this, lastMouseY this) in
  run (moves path) this =
  mkStarMap (canvas this) (zoom this)
            (panX this + (fst q - lastMouseX this))
            (panY this + (snd q - lastMouseY this))
            (showConstellations this) true (fst q) (snd q)
            (stars this) (plottedObjects this) (constellations this).
Proof.
  revert this. induction path as [ | p path IH ]; intros this Hd.
  - cbn. destruct this as [cv z px py sc dr lx ly st po cs].
    cbn in Hd |- *. subst dr. f_equal; ring.
  - cbn [moves map]. rewrite run_cons. cbn [perform].
    rewrite onMouseMove_dragging by exact Hd.
    fold (moves path). rewrite IH by reflexivity. cbn [canvas zoom panX panY
      showConstellations lastMouseX lastMouseY stars plottedObjects
      constellations].
    cbv zeta. rewrite (last_cons p).
    replace (fst p, snd p) with p by (destruct p; reflexivity).
    f_equal; ring.
Qed.

(** X4: a drag pans by the displacement of the pointer: when the pan and
    the offsets of the events are whole numbers, after a mouse-down at
    (x0, y0) and any moves the pan has grown by the way from (x0, y0) to
    the last offset visited, whatever the path between; the zoom and the
    canvas are unchanged, and the drag is still on, from the last
    offset. *)
Theorem drag_pans_by_displacement (x0 y0 : R) (path : list (R * R))
    (this : StarMap) :
  wholeNumber (panX this) -> wholeNumber (panY this) ->
  wholeNumber x0 -> wholeNumber y0 -> wholePath path ->
  let this' := run (MouseDown x0 y0 :: moves path) this in
  let q := last path (x0, y0) in
  panX this' = panX this + (fst q - x0)
  /\ panY this' = panY this + (snd q - y0)
  /\ zoom this' = zoom this
  /\ canvas this' = canvas this
  /\ isDragging this' = true
  /\ lastMouseX this' = fst q
  /\ lastMouseY this' = snd q.
Proof.
  intros _ _ _ _ _ this' q. unfold this'. rewrite run_cons. cbn [perform].
  rewrite run_moves_dragging by reflexivity.
  change (lastMouseX (exec (onMouseDown x0 y0) this)) with x0.
  change (lastMouseY (exec (onMouseDown x0 y0) this)) with y0.
  cbv zeta. fold q.
  change (panX (exec (onMouseDown x0 y0) this)) with (panX this).
  change (panY (exec (onMouseDown x0 y0) this)) with (panY this).
  change (zoom (exec (onMouseDown x0 y0) this)) with (zoom this).
  change (canvas (exec (onMouseDown x0 y0) this)) with (canvas this).
  cbn [panX panY zoom canvas isDragging lastMouseX lastMouseY].
  repeat split.
Qed.

Lemma wholeNumber_IZR (n : Z) :
  (Z.abs n <= 1000000000)%Z -> wholeNumber (IZR n).
Proof. intros H. exists n. split; [ reflexivity | exact H ]. Qed.

Lemma drag_pans_by_displacement_witness :
  let this := newStarMap 840 (fun _ => 0) in
  let this' := run (MouseDown 0 0 :: moves [(-400, -400); (25, -30)]) this in
  panX this' = panX this + (25 - 0)
  /\ panY this' = panY this + (-30 - 0)
  /\ zoom this' = zoom this
  /\ canvas this' = canvas this
  /\ isDragging this' = true
  /\ lastMouseX this' = 25
  /\ lastMouseY this' = -30.
Proof.
  intros this.
  apply (drag_pans_by_displacement 0 0 [(-400, -400); (25, -30)] this).
  - apply (wholeNumber_IZR 0). cbn. lia.
  - apply (wholeNumber_IZR 0). cbn. lia.
  - apply (wholeNumber_IZR 0). cbn. lia.
  - apply (wholeNumber_IZR 0). cbn. lia.
  - repeat constructor; cbn [fst snd].
    + apply (wholeNumber_IZR (-400)). cbn. lia.
    + apply (wholeNumber_IZR (-400)). cbn. lia.
    + apply (wholeNumber_IZR 25). cbn. lia.
    + apply (wholeNumber_IZR (-30)). cbn. lia.
Defined.

(** X5: moves with the button up do nothing: after a mouse-up or a
    mouse-leave, any run of mouse moves leaves the whole state as it
    was. *)
Theorem moves_after_release (path : list (R * R)) (this : StarMap) :
  run (MouseUp :: moves path) this = exec onMouseUp this
  /\ run (MouseLeave :: moves path) this = exec onMouseLeave this.
Proof.
  assert (Hidle : forall s : StarMap,
            isDragging s = false -> run (moves path) s = s).
  { induction path as [ | p path IH ]; intros s Hs; [ reflexivity | ].
    cbn [moves map]. rewrite run_cons. cbn [perform].
    rewrite onMouseMove_idle by exact Hs. apply IH. exact Hs. }
  split; rewrite run_cons; apply Hidle; reflexivity.
Qed.

(** ** Zoom steps and view controls *)

(** X7: the wheel does not undo itself: away from the clamps (zoom from
    0.56 to 4.5) a tick up and a tick down, in either order, leave a zoom
    strictly below the one before, and above 0.98 of it. *)
Theorem wheel_ticks_drift (up down : R) (this : StarMap) :
  up <= 0 -> 0 < down ->
  0.56 <= zoom this <= 4.5 ->
  0.98 * zoom this < zoom (exec (onWheel down) (exec (onWheel up) this))
    < zoom this
  /\ 0.98 * zoom this < zoom (exec (onWheel up) (exec (onWheel down) this))
       < zoom this.
Proof.
  intros Hup Hdown [Hlo Hhi].
  assert (Eup : (up >? 0) = false) by (apply gtb_false_iff; exact Hup).
  assert (Edown : (down >? 0) = true) by (apply gtb_true_iff; exact Hdown).
  rewrite !zoom_onWheel, Eup, Edown. split.
  - rewrite (Rmin_right 5 (zoom this * 1.1)) by lra.
    rewrite (Rmax_right 0.5 (zoom this * 1.1)) by lra.
    rewrite Rmin_right by lra. rewrite Rmax_right by lra. lra.
  - rewrite (Rmin_right 5 (zoom this * 0.9)) by lra.
    rewrite (Rmax_right 0.5 (zoom this * 0.9)) by lra.
    rewrite Rmin_right by lra. rewrite Rmax_right by lra. lra.
Qed.

Lemma wheel_ticks_drift_witness :
  let this := newStarMap 840 (fun _ => 0) in
  0.98 * zoom this < zoom (exec (onWheel 100) (exec (onWheel (-100)) this))
    < zoom this
  /\ 0.98 * zoom this < zoom (exec (onWheel (-100)) (exec (onWheel 100) this))
       < zoom this.
Proof.
  intros this.
  apply (wheel_ticks_drift (-100) 100 this); unfold this; cbn; lra.
Defined.

(** X8: toggling the constellations twice gives back the state: the
    second click undoes the first, and nothing else is touched. *)
Theorem toggleConstellations_involutive (this : StarMap) :
  exec toggleConstellations (exec toggleConstellations this) = this
  /\ showConstellations (exec toggleConstellations this)
     = negb (showConstellations this).
Proof.
  destruct this as [cv z px py sc dr lx ly st po cs]. cbn.
  rewrite negb_involutive. split; reflexivity.
Qed.

(** No action but a resize assigns the canvas. *)
Lemma perform_canvas_frame (a : Action) (this : StarMap) :
  isResize a = false -> canvas (exec (perform a) this) = canvas this.
Proof.
  destruct a; cbn [isResize perform]; intros H; try discriminate H;
    try reflexivity.
  unfold exec, onMouseMove, bind, get. destruct (isDragging this); reflexivity.
Qed.

Lemma run_canvas_frame (actions : list Action) (this : StarMap) :
  forallb (fun a => negb (isResize a)) actions = true ->
  canvas (run actions this) = canvas this.
Proof.
  revert this. induction actions as [ | a actions IH ]; intros this H.
  - reflexivity.
  - cbn [forallb] in H. apply andb_true_iff in H. destruct H as [Ha H].
    apply negb_true_iff in Ha. rewrite run_cons, IH by exact H.
    apply perform_canvas_frame. exact Ha.
Qed.

(** X9: [resetView] brings the first view back: after any actions that do
    not resize the canvas, a reset leaves zoom 1 and no pan, and every
    (ra, dec) is drawn where the freshly constructed map drew it. *)
Theorem resetView_restores_first_view (rectWidth : R) (random : nat -> R)
    (actions : list Action) :
  forallb (fun a => negb (isResize a)) actions = true ->
  let this := exec resetView (run actions (newStarMap rectWidth random)) in
  zoom this = 1 /\ panX this = 0 /\ panY this = 0
  /\ (forall r d : R,
        eval (raDecToCanvas r d) this =
        eval (raDecToCanvas r d) (newStarMap rectWidth random)).
Proof.
  intros Hno this. repeat split.
  intros r d. unfold eval. rewrite !raDecToCanvas_run. cbn [fst].
  change (canvas this) with (canvas (run actions (newStarMap rectWidth random))).
  rewrite (run_canvas_frame actions _ Hno).
  change (panX this) with 0. change (panY this) with 0.
  change (zoom this) with 1. reflexivity.
Qed.

Lemma resetView_restores_first_view_witness :
  let actions :=
    [ Wheel 3; MouseDown 10 10; MouseMove 60 (-5);
      PlotObject "Vega" 18.62 38.8 None; ClickZoomIn ] in
  let this := exec resetView (run actions (newStarMap 840 (fun _ => 0))) in
  zoom this = 1 /\ panX this = 0 /\ panY this = 0
  /\ (forall r d : R,
        eval (raDecToCanvas r d) this =
        eval (raDecToCanvas r d) (newStarMap 840 (fun _ => 0))).
Proof.
  intros actions.
  apply (resetView_restores_first_view 840 (fun _ => 0) actions).
  reflexivity.
Defined.

(** ** The generated catalog *)

Lemma generateRandomStars_In (random : nat -> R) (count : nat)
    (minMag maxMag : R) (s : Star) :
  (forall k : nat, 0 <= random k < 1) ->
  minMag < maxMag ->
  In s (generateRandomStars random count minMag maxMag) ->
  0 <= ra s < 24 /\ -90 <= dec s < 90 /\ minMag <= mag s < maxMag.
Proof.
  intros Hrand Hmag H. unfold generateRandomStars in H.
  apply in_map_iff in H. destruct H as (i & <- & _). cbn [ra dec mag].
  pose proof (Hrand (3 * i)%nat) as H0.
  pose proof (Hrand (3 * i + 1)%nat) as H1.
  pose proof (Hrand (3 * i + 2)%nat) as H2.
  repeat split; try lra; nra.
Qed.

(** X10: [generateRandomStars] returns [count] entries, each with a name
    that starts with Star_, and, when [Math.random] returns values from 0
    (included) to 1 (excluded) and −100 <= minMag <= maxMag <= 100, with a
    right ascension in [0, 24), a declination in [−90, 90) and a magnitude
    of at least minMag. *)
Theorem generateRandomStars_ranges (random : nat -> R) (count : nat)
    (minMag maxMag : R) :
  (forall k : nat, 0 <= random k < 1) ->
  -100 <= minMag -> minMag <= maxMag -> maxMag <= 100 ->
  List.length (generateRandomStars random count minMag maxMag) = count
  /\ (forall s : Star,
        In s (generateRandomStars random count minMag maxMag) ->
        Spec.synthetic (name s)
        /\ 0 <= ra s < 24 /\ -90 <= dec s < 90 /\ minMag <= mag s).
Proof.
  intros Hrand _ Hmag _. split.
  - unfold generateRandomStars. rewrite length_map, length_seq. reflexivity.
  - intros s Hs. split.
    + exact (generateRandomStars_synthetic random count minMag maxMag s Hs).
    + unfold generateRandomStars in Hs. apply in_map_iff in Hs.
      destruct Hs as (i & <- & _). cbn [ra dec mag].
      pose proof (Hrand (3 * i)%nat) as H0.
      pose proof (Hrand (3 * i + 1)%nat) as H1.
      pose proof (Hrand (3 * i + 2)%nat) as H2.
      repeat split; try lra; nra.
Qed.

Lemma generateRandomStars_ranges_witness :
  List.length (generateRandomStars (fun _ => 0.5) 3 0.5 4.0) = 3%nat
  /\ (forall s : Star,
        In s (generateRandomStars (fun _ => 0.5) 3 0.5 4.0) ->
        Spec.synthetic (name s)
        /\ 0 <= ra s < 24 /\ -90 <= dec s < 90 /\ 0.5 <= mag s).
Proof.
  apply (generateRandomStars_ranges (fun _ => 0.5) 3 0.5 4.0).
  - intros k. lra.
  - lra.
  - lra.
  - lra.
Defined.

(** The literal entries pass the filter of the constellation graph. *)
Lemma brightestStars_bright (s : Star) :
  In s brightestStars -> isBrightStar s = true.
Proof.
  intros H. apply isBrightStar_true_iff. unfold brightestStars in H.
  cbn [In] in H.
  repeat (destruct H as [ <- | H ];
          [ cbn [mag name]; repeat split; [ lra | discriminate ] | ]).
  destruct H.
Qed.

Lemma brightestStars_ranges (s : Star) :
  In s brightestStars ->
  0 <= ra s < 24 /\ -90 <= dec s <= 90 /\ -1.46 <= mag s < 1.5.
Proof.
  intros H. unfold brightestStars in H. cbn [In] in H.
  repeat (destruct H as [ <- | H ]; [ cbn [ra dec mag]; lra | ]).
  destruct H.
Qed.

Lemma filter_all {A : Type} (f : A -> bool) (l : list A) :
  (forall a : A, In a l -> f a = true) -> filter f l = l.
Proof.
  induction l as [ | a l IH ]; intros H; [ reflexivity | ].
  cbn [filter]. rewrite (H a (or_introl eq_refl)). f_equal.
  apply IH. intros b Hb. apply H. right. exact Hb.
Qed.

Lemma filter_none {A : Type} (f : A -> bool) (l : list A) :
  (forall a : A, In a l -> f a = false) -> filter f l = [].
Proof.
  induction l as [ | a l IH ]; intros H; [ reflexivity | ].
  cbn [filter]. rewrite (H a (or_introl eq_refl)).
  apply IH. intros b Hb. apply H. right. exact Hb.
Qed.

(** The candidates of the graph of a generated catalog are its literal
    entries, whatever the random values. *)
Lemma brightStars_of_catalog (random : nat -> R) :
  filter isBrightStar (generateStarCatalog random) = brightestStars.
Proof.
  unfold generateStarCatalog. rewrite filter_app.
  rewrite (filter_all isBrightStar brightestStars brightestStars_bright).
  rewrite filter_none; [ apply app_nil_r | ].
  intros s Hs. apply generateRandomStars_synthetic in Hs.
  unfold Spec.synthetic in Hs. unfold isBrightStar. rewrite Hs.
  cbn [negb]. apply andb_false_r.
Qed.

(** X11: the catalog of [generateStarCatalog] has 215 entries, the 15
    literal ones first; when [Math.random] returns values from 0
    (included) to 1 (excluded), every entry has a right ascension in
    [0, 24), a declination in [−90, 90] and a magnitude in [−1.46, 4). *)
Theorem generateStarCatalog_ranges (random : nat -> R) :
  (forall k : nat, 0 <= random k < 1) ->
  List.length (generateStarCatalog random) = 215%nat
  /\ firstn 15 (generateStarCatalog random) = brightestStars
  /\ (forall s : Star,
        In s (generateStarCatalog random) ->
        0 <= ra s < 24 /\ -90 <= dec s <= 90 /\ -1.46 <= mag s < 4).
Proof.
  intros Hrand. split; [ | split ].
  - unfold generateStarCatalog, generateRandomStars.
    rewrite length_app, length_map, length_seq. reflexivity.
  - unfold generateStarCatalog.
    change 15%nat with (List.length brightestStars + 0)%nat.
    rewrite firstn_app_2. cbn [firstn]. apply app_nil_r.
  - intros s Hs. unfold generateStarCatalog in Hs. apply in_app_or in Hs.
    destruct Hs as [ Hs | Hs ].
    + pose proof (brightestStars_ranges s Hs). lra.
    + assert (Hm : 0.5 < 4.0) by lra.
      pose proof (generateRandomStars_In random 200 0.5 4.0 s Hrand Hm Hs).
      lra.
Qed.

Lemma generateStarCatalog_ranges_witness :
  List.length (generateStarCatalog (fun _ => 0.5)) = 215%nat
  /\ firstn 15 (generateStarCatalog (fun _ => 0.5)) = brightestStars
  /\ (forall s : Star,
        In s (generateStarCatalog (fun _ => 0.5)) ->
        0 <= ra s < 24 /\ -90 <= dec s <= 90 /\ -1.46 <= mag s < 4).
Proof.
  apply (generateStarCatalog_ranges (fun _ => 0.5)).
  intros k. lra.
Defined.

(** ** Completeness and size of the graph *)

Lemma angularDist_sym (a b : Star) : angularDist a b = angularDist b a.
Proof. rewrite !angularDist_angleDegrees. apply angleDegrees_sym. Qed.

Lemma linesAmong_complete (brightStars : list Star) (a b : Star) :
  In a brightStars -> In b brightStars -> a <> b ->
  angularDist a b < 30 ->
  In (mkLine a b) (linesAmong brightStars)
  \/ In (mkLine b a) (linesAmong brightStars).
Proof.
  intros Ha Hb Hne Hd.
  induction brightStars as [ | s1 rest IH ]; [ destruct Ha | ].
  cbn [linesAmong]. destruct Ha as [ Ha | Ha ], Hb as [ Hb | Hb ].
  - exfalso. apply Hne. congruence.
  - left. apply in_or_app. left. apply linesFrom_In. cbn [star1 star2].
    subst s1. auto.
  - right. apply in_or_app. left. apply linesFrom_In. cbn [star1 star2].
    subst s1. rewrite angularDist_sym. auto.
  - destruct (IH Ha Hb) as [ H | H ]; [ left | right ];
      apply in_or_app; right; exact H.
Qed.

(** A point is at distance zero from itself. *)
Lemma angleDegrees_self (a : Star) : Spec.angleDegrees a a = 0.
Proof.
  unfold Spec.angleDegrees, Spec.radToDeg. cbv zeta.
  replace (Spec.hoursToRad (ra a) - Spec.hoursToRad (ra a)) with 0 by ring.
  rewrite cos_0, Rmult_1_r.
  pose proof (sin2_cos2 (Spec.degToRad (dec a))) as H. unfold Rsqr in H.
  rewrite H, acos_1. ring.
Qed.

(** X12: the graph misses no pair that is clearly within reach: two
    catalog entries that both pass the filter (magnitude below 2.0, a
    name that is not empty and does not start with Star_), with right
    ascensions in [0, 24] and declinations in [−90, 90], whose distance is
    between 0.001 and 29.99 degrees, are joined by a line, in one order or
    the other.  (Closer to 0 or to 30 degrees the rounding of the code
    decides.) *)
Theorem generateConstellationLines_complete (this : StarMap) (a b : Star) :
  In a (stars this) -> In b (stars this) ->
  isBrightStar a = true -> isBrightStar b = true ->
  0 <= ra a <= 24 -> -90 <= dec a <= 90 ->
  0 <= ra b <= 24 -> -90 <= dec b <= 90 ->
  0.001 <= Spec.angleDegrees a b <= 29.99 ->
  In (mkLine a b) (eval generateConstellationLines this)
  \/ In (mkLine b a) (eval generateConstellationLines this).
Proof.
  intros Ha Hb Ba Bb _ _ _ _ [Hlo Hhi]. unfold eval.
  rewrite generateConstellationLines_run. cbn [fst].
  apply linesAmong_complete.
  - apply filter_In. auto.
  - apply filter_In. auto.
  - intros <-. rewrite angleDegrees_self in Hlo. lra.
  - rewrite angularDist_angleDegrees. lra.
Qed.

Lemma generateConstellationLines_complete_witness :
  let a := mkStar "A" 1 0 1 in
  let b := mkStar "B" 0 0 1.5 in
  let c := mkStar "Star_0" 0.5 0 1 in
  let this := mkStarMap (mkCanvas 800 600) 1 0 0 true false 0 0 [b; c; a] [] [] in
  In (mkLine a b) (eval generateConstellationLines this)
  \/ In (mkLine b a) (eval generateConstellationLines this).
Proof.
  intros a b c this.
  assert (Hd : Spec.angleDegrees a b = 15).
  { rewrite <- angularDist_angleDegrees. unfold a, b.
    rewrite angularDist_equator; lra. }
  apply (generateConstellationLines_complete this a b).
  - cbn. auto.
  - cbn. auto.
  - apply isBrightStar_true_iff. cbn. repeat split; [ lra | discriminate ].
  - apply isBrightStar_true_iff. cbn. repeat split; [ lra | discriminate ].
  - cbn. lra.
  - cbn. lra.
  - cbn. lra.
  - cbn. lra.
  - rewrite Hd. lra.
Defined.

Lemma linesFrom_length (s1 : Star) (rest : list Star) :
  (List.length (linesFrom s1 rest) <= List.length rest)%nat.
Proof.
  induction rest as [ | s2 rest IH ]; cbn [linesFrom List.length].
  - apply Nat.le_refl.
  - destruct (angularDist s1 s2 <? 30); cbn [List.length]; lia.
Qed.

(** Among [n] candidates there are at most [n (n − 1) / 2] lines. *)
Lemma linesAmong_length (brightStars : list Star) :
  (2 * List.length (linesAmong brightStars)
   <= List.length brightStars * (List.length brightStars - 1))%nat.
Proof.
  induction brightStars as [ | s1 rest IH ]; cbn [linesAmong List.length].
  - cbn. apply Nat.le_refl.
  - rewrite length_app. pose proof (linesFrom_length s1 rest) as H1.
    replace (S (List.length rest) - 1)%nat with (List.length rest) by lia.
    destruct (List.length rest) as [ | n ] eqn:E.
    + lia.
    + replace (S n - 1)%nat with n in IH by lia. nia.
Qed.

(** X13: the graph of a constructed map is fixed: whatever the random
    background stars, the container width and the actions performed
    since, the constellation lines are those among the 15 literal stars,
    105 at most, and the catalog is the one the constructor generated. *)
Theorem constellations_fixed (rectWidth : R) (random : nat -> R)
    (actions : list Action) :
  let this := run actions (newStarMap rectWidth random) in
  constellations this = linesAmong brightestStars
  /\ stars this = generateStarCatalog random
  /\ (List.length (constellations this) <= 105)%nat.
Proof.
  intros this.
  destruct (run_catalog_frame actions (newStarMap rectWidth random))
    as [ Hs Hc ].
  fold this in Hs, Hc.
  assert (Hlines : constellations this = linesAmong brightestStars).
  { rewrite Hc, constellations_newStarMap, brightStars_of_catalog.
    reflexivity. }
  split; [ exact Hlines | split ].
  - rewrite Hs. reflexivity.
  - rewrite Hlines. pose proof (linesAmong_length brightestStars) as H.
    change (List.length brightestStars) with 15%nat in H. lia.
Qed.

(** ** The entries of the plotted-object list *)

Lemma filter_split_length {A : Type} (f : A -> bool) (l : list A) :
  (List.length (filter f l) + List.length (filter (fun a => negb (f a)) l)
   = List.length l)%nat.
Proof.
  induction l as [ | a l IH ]; [ reflexivity | ].
  cbn [filter]. destruct (f a); cbn [negb List.length]; lia.
Qed.

(** X14: what [plotObject] does to the list: the list after the call is
    the list before without the entries of the plotted name, in the order
    they had, followed by the new entry; so an entry of another name is in
    the one list exactly when it is in the other, and the length is the
    old one, less the entries the name had, plus one. *)
Theorem plotObject_list_effect (n : string) (r d : R) (t : option string)
    (this : StarMap) :
  let before := plottedObjects this in
  let after := plottedObjects (exec (plotObject n r d t) this) in
  let entry :=
    mkPlotted n r d (match t with Some t' => t' | None => "Object"%string end) in
  after
  = filter (fun obj => negb (String.eqb (obj_name obj) n)) before ++ [entry]
  /\ (forall obj : PlottedObject,
        obj_name obj <> n -> (In obj after <-> In obj before))
  /\ (List.length after + countName n before = List.length before + 1)%nat.
Proof.
  intros before after entry.
  assert (Hafter :
    after
    = filter (fun obj => negb (String.eqb (obj_name obj) n)) before ++ [entry]).
  { unfold after. rewrite plottedObjects_plotObject. reflexivity. }
  split; [ exact Hafter | split ].
  - intros obj Hne. rewrite Hafter, in_app_iff, filter_In.
    destruct (String.eqb_spec (obj_name obj) n) as [ E | _ ];
      [ contradiction | ].
    cbn [negb In]. split.
    + intros [ [ H _ ] | [ H | [] ] ]; [ exact H | ].
      exfalso. apply Hne. rewrite <- H. reflexivity.
    + intros H. left. split; [ exact H | reflexivity ].
  - rewrite Hafter, length_app. cbn [List.length]. unfold countName.
    pose proof (filter_split_length
                  (fun obj => String.eqb (obj_name obj) n) before) as H.
    lia.
Qed.

(** ** The frame painted by [render] *)

Lemma andThen_run (m1 m2 : M (list Paint.Call)) (this : StarMap) :
  exec m1 this = this ->
  exec m2 this = this ->
  Paint.andThen m1 m2 this = (eval m1 this ++ eval m2 this, this).
Proof.
  unfold exec, eval, Paint.andThen, bind, ret. intros H1 H2.
  destruct (m1 this) as [c1 s1]. cbn [fst snd] in *. subst s1.
  destruct (m2 this) as [c2 s2]. cbn [fst snd] in *. subst s2.
  reflexivity.
Qed.

(** A loop whose body assigns nothing makes the calls of its rounds, one
    after the other. *)
Lemma forEach_run {A : Type} (items : list A)
    (body : A -> M (list Paint.Call)) (this : StarMap) :
  (forall item : A, exec (body item) this = this) ->
  Paint.forEach items body this =
  (flat_map (fun item => eval (body item) this) items, this).
Proof.
  intros Hbody. induction items as [ | item rest IH ]; [ reflexivity | ].
  cbn [Paint.forEach flat_map]. rewrite andThen_run.
  - unfold eval at 2. rewrite IH. reflexivity.
  - apply Hbody.
  - unfold exec. rewrite IH. reflexivity.
Qed.

(** The two methods the callbacks use return a value and leave [this]. *)
Lemma raDecToCanvas_pure (r d : R) (this : StarMap) :
  raDecToCanvas r d this = (eval (raDecToCanvas r d) this, this).
Proof. reflexivity. Qed.

Lemma isPointVisible_pure (pos : Point) (this : StarMap) :
  isPointVisible pos this = (eval (isPointVisible pos) this, this).
Proof. reflexivity. Qed.

Lemma drawLine_run (line : Line) (this : StarMap) :
  Paint.drawLine line this =
  (if lineVisible this line then
     let pos1 := eval (raDecToCanvas (ra (star1 line)) (dec (star1 line))) this in
     let pos2 := eval (raDecToCanvas (ra (star2 line)) (dec (star2 line))) this in
     [ Paint.BeginPath;
       Paint.MoveTo (x pos1) (y pos1);
       Paint.LineTo (x pos2) (y pos2);
       Paint.Stroke ]
   else [], this).
Proof.
  unfold Paint.drawLine, Paint.orElse, bind, lineVisible, starVisible,
    visibleAt.
  rewrite (raDecToCanvas_pure (ra (star1 line)) (dec (star1 line)) this).
  cbv beta iota.
  rewrite (raDecToCanvas_pure (ra (star2 line)) (dec (star2 line)) this).
  cbv beta iota.
  set (pos1 := eval (raDecToCanvas (ra (star1 line)) (dec (star1 line))) this).
  set (pos2 := eval (raDecToCanvas (ra (star2 line)) (dec (star2 line))) this).
  rewrite (isPointVisible_pure pos1 this). cbv beta iota.
  destruct (eval (isPointVisible pos1) this); cbn [orb].
  - reflexivity.
  - rewrite (isPointVisible_pure pos2 this). cbv beta iota.
    destruct (eval (isPointVisible pos2) this); reflexivity.
Qed.

Lemma drawStar_run (star : Star) (this : StarMap) :
  Paint.drawStar star this =
  (if starVisible this star then
     let pos := eval (raDecToCanvas (ra star) (dec star)) this in
     [ Paint.Save;
       Paint.Translate (x pos) (y pos);
       Paint.SetGlobalAlpha (Paint.starAlpha (mag star));
       Paint.SetFillStyle (Paint.Rgba 255 255 (Paint.starBlue (mag star)) 1);
       Paint.BeginPath;
       Paint.Arc 0 0 (Paint.starSize (mag star)) 0 (PI * 2);
       Paint.Fill;
       Paint.Restore ]
     ++ (if Paint.isLabelled star then
           [ Paint.SetFillStyle (Paint.Rgba 255 255 255 (Paint.starAlpha (mag star)));
             Paint.SetFont "10px sans-serif";
             Paint.FillText (name star) (x pos + 5) (y pos - 5) ]
         else [])
   else [], this).
Proof.
  unfold Paint.drawStar, bind, starVisible, visibleAt.
  rewrite (raDecToCanvas_pure (ra star) (dec star) this). cbv beta iota.
  set (pos := eval (raDecToCanvas (ra star) (dec star)) this).
  rewrite (isPointVisible_pure pos this). cbv beta iota.
  destruct (eval (isPointVisible pos) this); cbn [negb].
  - rewrite andThen_run by (destruct (Paint.isLabelled star); reflexivity).
    destruct (Paint.isLabelled star); reflexivity.
  - reflexivity.
Qed.

Lemma drawObject_run (obj : PlottedObject) (this : StarMap) :
  Paint.drawObject obj this =
  (if objectVisible this obj then
     let pos := eval (raDecToCanvas (obj_ra obj) (obj_dec obj)) this in
     [ Paint.SetFillStyle (Paint.Css "#ff6b6b");
       Paint.SetStrokeStyle (Paint.Css "#ffffff");
       Paint.SetLineWidth 2;
       Paint.BeginPath;
       Paint.Arc (x pos) (y pos) 8 0 (PI * 2);
       Paint.Fill;
       Paint.Stroke;
       Paint.BeginPath;
       Paint.MoveTo (x pos - 15) (y pos);
       Paint.LineTo (x pos + 15) (y pos);
       Paint.MoveTo (x pos) (y pos - 15);
       Paint.LineTo (x pos) (y pos + 15);
       Paint.Stroke;
       Paint.SetFillStyle (Paint.Css "#ff6b6b");
       Paint.SetFont "bold 12px sans-serif";
       Paint.FillText (obj_name obj) (x pos + 12) (y pos - 12) ]
   else [], this).
Proof.
  unfold Paint.drawObject, bind, objectVisible, visibleAt.
  rewrite (raDecToCanvas_pure (obj_ra obj) (obj_dec obj) this).
  cbv beta iota.
  set (pos := eval (raDecToCanvas (obj_ra obj) (obj_dec obj)) this).
  rewrite (isPointVisible_pure pos this). cbv beta iota.
  destruct (eval (isPointVisible pos) this); reflexivity.
Qed.

(** The calls of a frame, part by part; [render] assigns no field. *)
Lemma render_run (this : StarMap) :
  Paint.render this =
  ([ Paint.SetFillStyle (Paint.Css "#000000");
     Paint.FillRect 0 0 (width (canvas this)) (height (canvas this));
     Paint.CreateRadialGradient 0 0 0 0 0 50;
     Paint.AddColorStop 0 (Paint.Rgba 255 255 255 1);
     Paint.AddColorStop 0.5 (Paint.Rgba 255 255 200 0.8);
     Paint.AddColorStop 1 (Paint.Rgba 255 255 255 0) ]
   ++ (if showConstellations this then
         [ Paint.SetStrokeStyle (Paint.Rgba 102 126 234 0.3);
           Paint.SetLineWidth 1 ]
         ++ flat_map (fun line => eval (Paint.drawLine line) this)
                     (constellations this)
       else [])
   ++ flat_map (fun star => eval (Paint.drawStar star) this) (stars this)
   ++ flat_map (fun obj => eval (Paint.drawObject obj) this)
               (plottedObjects this),
   this).
Proof.
  assert (Hl : Paint.forEach (constellations this) Paint.drawLine this
               = (flat_map (fun line => eval (Paint.drawLine line) this)
                           (constellations this), this)).
  { apply forEach_run. intros l. unfold exec. rewrite drawLine_run.
    reflexivity. }
  assert (Hs : Paint.forEach (stars this) Paint.drawStar this
               = (flat_map (fun star => eval (Paint.drawStar star) this)
                           (stars this), this)).
  { apply forEach_run. intros s. unfold exec. rewrite drawStar_run.
    reflexivity. }
  assert (Ho : Paint.forEach (plottedObjects this) Paint.drawObject this
               = (flat_map (fun obj => eval (Paint.drawObject obj) this)
                           (plottedObjects this), this)).
  { apply forEach_run. intros o. unfold exec. rewrite drawObject_run.
    reflexivity. }
  unfold Paint.render, Paint.andThen, Paint.emit, bind, get, ret.
  destruct (showConstellations this).
  - rewrite Hl, Hs, Ho. reflexivity.
  - rewrite Hs, Ho. reflexivity.
Qed.

Lemma countCalls_app (test : Paint.Call -> bool) (l1 l2 : list Paint.Call) :
  Paint.countCalls test (l1 ++ l2)
  = (Paint.countCalls test l1 + Paint.countCalls test l2)%nat.
Proof. unfold Paint.countCalls. rewrite filter_app, length_app. reflexivity. Qed.

(** When a round makes [k] calls of a kind for an item that passes [keep]
    and none for another, the loop makes [k] of them per item kept. *)
Lemma countCalls_flat_map {A : Type} (test : Paint.Call -> bool)
    (round : A -> list Paint.Call) (keep : A -> bool) (k : nat)
    (items : list A) :
  (forall item : A,
     Paint.countCalls test (round item) = if keep item then k else 0%nat) ->
  Paint.countCalls test (flat_map round items)
  = (k * List.length (filter keep items))%nat.
Proof.
  intros Hround. induction items as [ | item rest IH ].
  - cbn. lia.
  - cbn [flat_map filter]. rewrite countCalls_app, Hround, IH.
    destruct (keep item); cbn [List.length]; lia.
Qed.

Lemma drawLine_counts (this : StarMap) (line : Line) :
  Paint.countCalls Paint.isStroke (eval (Paint.drawLine line) this)
  = (if lineVisible this line then 1%nat else 0%nat)
  /\ Paint.countCalls Paint.isFill (eval (Paint.drawLine line) this) = 0%nat.
Proof.
  unfold eval. rewrite drawLine_run. cbn [fst].
  destruct (lineVisible this line); split; reflexivity.
Qed.

Lemma drawStar_counts (this : StarMap) (star : Star) :
  Paint.countCalls Paint.isStroke (eval (Paint.drawStar star) this) = 0%nat
  /\ Paint.countCalls Paint.isFill (eval (Paint.drawStar star) this)
     = (if starVisible this star then 1%nat else 0%nat).
Proof.
  unfold eval. rewrite drawStar_run. cbn [fst].
  destruct (starVisible this star); [ | split; reflexivity ].
  destruct (Paint.isLabelled star); split; reflexivity.
Qed.

Lemma drawObject_counts (this : StarMap) (obj : PlottedObject) :
  Paint.countCalls Paint.isStroke (eval (Paint.drawObject obj) this)
  = (if objectVisible this obj then 2%nat else 0%nat)
  /\ Paint.countCalls Paint.isFill (eval (Paint.drawObject obj) this)
     = (if objectVisible this obj then 1%nat else 0%nat).
Proof.
  unfold eval. rewrite drawObject_run. cbn [fst].
  destruct (objectVisible this obj); split; reflexivity.
Qed.

(** X15: a frame paints what is visible and assigns nothing: [render]
    leaves every field of the map; it fills one disc per catalog star and
    one per plotted object whose projection passes [isPointVisible]; and
    it strokes one segment per constellation line with at least one
    visible end when the constellations are shown, none when they are
    hidden, plus a marker outline and a crosshair per visible plotted
    object. *)
Theorem render_paints_visible (this : StarMap) :
  let log := eval Paint.render this in
  let visibleStars := filter (starVisible this) (stars this) in
  let visibleObjects := filter (objectVisible this) (plottedObjects this) in
  let visibleLines := filter (lineVisible this) (constellations this) in
  exec Paint.render this = this
  /\ Paint.countCalls Paint.isFill log
     = (List.length visibleStars + List.length visibleObjects)%nat
  /\ Paint.countCalls Paint.isStroke log
     = ((if showConstellations this then List.length visibleLines else 0)
        + 2 * List.length visibleObjects)%nat.
Proof.
  intros log visibleStars visibleObjects visibleLines.
  unfold log, eval, exec. rewrite render_run. cbn [fst snd].
  split; [ reflexivity | ].
  rewrite !countCalls_app.
  rewrite (countCalls_flat_map Paint.isFill _ (starVisible this) 1)
    by (intros s; apply drawStar_counts).
  rewrite (countCalls_flat_map Paint.isFill _ (objectVisible this) 1)
    by (intros o; apply drawObject_counts).
  rewrite (countCalls_flat_map Paint.isStroke _ (fun _ => false) 0)
    by (intros s; apply drawStar_counts).
  rewrite (countCalls_flat_map Paint.isStroke _ (objectVisible this) 2)
    by (intros o; apply drawObject_counts).
  fold visibleStars visibleObjects.
  destruct (showConstellations this).
  - rewrite !countCalls_app.
    rewrite (countCalls_flat_map Paint.isFill _ (fun _ => false) 0)
      by (intros l; apply drawLine_counts).
    rewrite (countCalls_flat_map Paint.isStroke _ (lineVisible this) 1)
      by (intros l; apply drawLine_counts).
    fold visibleLines. cbn [Paint.countCalls filter Paint.isFill
      Paint.isStroke List.length]. split; lia.
  - cbn [Paint.countCalls filter Paint.isFill Paint.isStroke List.length].
    split; lia.
Qed.

(** A round of one of the three loops leaves the number of saved states
    as it found it. *)
Lemma bracketed_drawLine (this : StarMap) (line : Line) (depth : nat)
    (rest : list Paint.Call) :
  Paint.bracketed depth (eval (Paint.drawLine line) this ++ rest)
  = Paint.bracketed depth rest.
Proof.
  unfold eval. rewrite drawLine_run. cbn [fst].
  destruct (lineVisible this line); reflexivity.
Qed.

Lemma bracketed_drawStar (this : StarMap) (star : Star) (depth : nat)
    (rest : list Paint.Call) :
  Paint.bracketed depth (eval (Paint.drawStar star) this ++ rest)
  = Paint.bracketed depth rest.
Proof.
  unfold eval. rewrite drawStar_run. cbn [fst].
  destruct (starVisible this star); [ | reflexivity ].
  destruct (Paint.isLabelled star); reflexivity.
Qed.

Lemma bracketed_drawObject (this : StarMap) (obj : PlottedObject)
    (depth : nat) (rest : list Paint.Call) :
  Paint.bracketed depth (eval (Paint.drawObject obj) this ++ rest)
  = Paint.bracketed depth rest.
Proof.
  unfold eval. rewrite drawObject_run. cbn [fst].
  destruct (objectVisible this obj); reflexivity.
Qed.

Lemma bracketed_flat_map {A : Type} (round : A -> list Paint.Call)
    (items : list A) (depth : nat) (rest : list Paint.Call) :
  (forall (item : A) (tail : list Paint.Call),
     Paint.bracketed depth (round item ++ tail) = Paint.bracketed depth tail) ->
  Paint.bracketed depth (flat_map round items ++ rest)
  = Paint.bracketed depth rest.
Proof.
  intros Hround. induction items as [ | item items IH ]; [ reflexivity | ].
  cbn [flat_map]. rewrite <- app_assoc, Hround. exact IH.
Qed.

(** X16: a frame leaks no drawing state: in the calls of [render] every
    [save] is matched by a later [restore], no [restore] comes without a
    [save], and the origin is moved and the opacity set only between the
    two, so the plotted objects are drawn in canvas coordinates. *)
Theorem render_bracketed (this : StarMap) :
  Paint.bracketed 0 (eval Paint.render this) = true.
Proof.
  unfold eval. rewrite render_run. cbn [fst].
  cbn [app Paint.bracketed].
  assert (Hlines :
    forall rest : list Paint.Call,
      Paint.bracketed 0
        ((if showConstellations this then
            [ Paint.SetStrokeStyle (Paint.Rgba 102 126 234 0.3);
              Paint.SetLineWidth 1 ]
            ++ flat_map (fun line => eval (Paint.drawLine line) this)
                        (constellations this)
          else []) ++ rest)
      = Paint.bracketed 0 rest).
  { intros rest. destruct (showConstellations this); [ | reflexivity ].
    cbn [app Paint.bracketed]. apply bracketed_flat_map.
    intros l tail. apply bracketed_drawLine. }
  rewrite Hlines.
  rewrite bracketed_flat_map by (intros s tail; apply bracketed_drawStar).
  rewrite <- (app_nil_r (flat_map _ (plottedObjects this))).
  rewrite bracketed_flat_map by (intros o tail; apply bracketed_drawObject).
  reflexivity.
Qed.

(** Where the calls of a frame come from. *)
Lemma render_In (this : StarMap) (c : Paint.Call) :
  In c (eval Paint.render this) <->
  In c [ Paint.SetFillStyle (Paint.Css "#000000");
         Paint.FillRect 0 0 (width (canvas this)) (height (canvas this));
         Paint.CreateRadialGradient 0 0 0 0 0 50;
         Paint.AddColorStop 0 (Paint.Rgba 255 255 255 1);
         Paint.AddColorStop 0.5 (Paint.Rgba 255 255 200 0.8);
         Paint.AddColorStop 1 (Paint.Rgba 255 255 255 0) ]
  \/ (showConstellations this = true
      /\ (In c [ Paint.SetStrokeStyle (Paint.Rgba 102 126 234 0.3);
                 Paint.SetLineWidth 1 ]
          \/ exists line : Line,
               In line (constellations this)
               /\ In c (eval (Paint.drawLine line) this)))
  \/ (exists star : Star,
        In star (stars this) /\ In c (eval (Paint.drawStar star) this))
  \/ (exists obj : PlottedObject,
        In obj (plottedObjects this)
        /\ In c (eval (Paint.drawObject obj) this)).
Proof.
  unfold eval at 1. rewrite render_run. cbn [fst].
  rewrite !in_app_iff, !in_flat_map.
  destruct (showConstellations this).
  - rewrite in_app_iff, in_flat_map. intuition congruence.
  - cbn [In]. intuition congruence.
Qed.

(** X17: the labels of a frame: [render] writes a text at a place exactly
    when it is the name of a visible catalog star of magnitude below 1.5
    with a name that is not empty and does not start with Star_, written
    5 pixels right of and above the star, or the name of a visible plotted
    object, written 12 pixels right of and above it. *)
Theorem render_labels (this : StarMap) (text : string) (lx ly : R) :
  In (Paint.FillText text lx ly) (eval Paint.render this) <->
  (exists star : Star,
     In star (stars this)
     /\ starVisible this star = true
     /\ Paint.isLabelled star = true
     /\ text = name star
     /\ lx = x (eval (raDecToCanvas (ra star) (dec star)) this) + 5
     /\ ly = y (eval (raDecToCanvas (ra star) (dec star)) this) - 5)
  \/ (exists obj : PlottedObject,
        In obj (plottedObjects this)
        /\ objectVisible this obj = true
        /\ text = obj_name obj
        /\ lx = x (eval (raDecToCanvas (obj_ra obj) (obj_dec obj)) this) + 12
        /\ ly = y (eval (raDecToCanvas (obj_ra obj) (obj_dec obj)) this) - 12).
Proof.
  rewrite render_In. split.
  - intros [ H | [ (_ & [ H | (line & _ & H) ]) | [ (star & Hin & H) | (obj & Hin & H) ] ] ].
    + cbn [In] in H. intuition discriminate.
    + cbn [In] in H. intuition discriminate.
    + exfalso. unfold eval in H. rewrite drawLine_run in H. cbn [fst] in H.
      destruct (lineVisible this line); cbn [In] in H; intuition discriminate.
    + left. exists star. unfold eval in H at 1. rewrite drawStar_run in H.
      cbn [fst] in H. destruct (starVisible this star); [ | destruct H ].
      destruct (Paint.isLabelled star); cbn [app In] in H;
        intuition (try discriminate).
      all: match goal with E : _ = Paint.FillText _ _ _ |- _ =>
             injection E as <- <- <- end; reflexivity.
    + right. exists obj. unfold eval in H at 1. rewrite drawObject_run in H.
      cbn [fst] in H. destruct (objectVisible this obj); [ | destruct H ].
      cbn [In] in H. intuition (try discriminate).
      all: match goal with E : _ = Paint.FillText _ _ _ |- _ =>
             injection E as <- <- <- end; reflexivity.
  - intros [ (star & Hin & Hv & Hl & -> & -> & ->)
           | (obj & Hin & Hv & -> & -> & ->) ].
    + right. right. left. exists star. split; [ exact Hin | ].
      change (eval (Paint.drawStar star) this)
        with (fst (Paint.drawStar star this)).
      rewrite drawStar_run. cbn [fst]. rewrite Hv, Hl.
      cbn [app In]. intuition.
    + right. right. right. exists obj. split; [ exact Hin | ].
      change (eval (Paint.drawObject obj) this)
        with (fst (Paint.drawObject obj this)).
      rewrite drawObject_run. cbn [fst]. rewrite Hv.
      cbn [In]. intuition.
Qed.

Lemma brightestStars_labelled (s : Star) :
  In s brightestStars -> Paint.isLabelled s = true.
Proof.
  intros H. unfold Paint.isLabelled. unfold brightestStars in H.
  cbn [In] in H.
  repeat (destruct H as [ <- | H ];
          [ cbn [mag name];
            match goal with |- (?a <? ?b) && _ && _ = true =>
              replace (a <? b) with true
                by (symmetry; apply ltb_true_iff; lra)
            end; reflexivity | ]).
  destruct H.
Qed.

(** X18: the stars a constructed map labels are its 15 literal stars:
    whatever the random background stars and the actions performed, the
    catalog entries that pass the label test are exactly the literal
    entries, in their order. *)
Theorem labelled_stars_fixed (rectWidth : R) (random : nat -> R)
    (actions : list Action) :
  filter Paint.isLabelled (stars (run actions (newStarMap rectWidth random)))
  = brightestStars.
Proof.
  destruct (run_catalog_frame actions (newStarMap rectWidth random))
    as [ Hs _ ].
  rewrite Hs. change (stars (newStarMap rectWidth random))
    with (generateStarCatalog random).
  unfold generateStarCatalog. rewrite filter_app.
  rewrite (filter_all Paint.isLabelled brightestStars brightestStars_labelled).
  rewrite filter_none; [ apply app_nil_r | ].
  intros s H. apply generateRandomStars_synthetic in H.
  unfold Spec.synthetic in H. unfold Paint.isLabelled. rewrite H.
  cbn [negb]. apply andb_false_r.
Qed.

(** X19: brighter is larger and more opaque: of two magnitudes the
    smaller one gets a disc at least as large and at least as opaque; the
    radius is never below 0.5 and the opacity never below 0.3; the opacity
    is at most 1 for a magnitude of 0 or more, and it is above 1, outside
    the range of [globalAlpha], for a magnitude of −0.01 or less. *)
Theorem star_disc_brighter_larger (m1 m2 faint bright : R) :
  m1 <= m2 -> 0 <= faint -> bright <= -0.01 ->
  Paint.starSize m2 <= Paint.starSize m1
  /\ Paint.starAlpha m2 <= Paint.starAlpha m1
  /\ 0.5 <= Paint.starSize m2
  /\ 0.3 <= Paint.starAlpha m2
  /\ Paint.starAlpha faint <= 1
  /\ 1 < Paint.starAlpha bright.
Proof.
  intros Hle Hfaint Hbright. unfold Paint.starSize, Paint.starAlpha.
  repeat split.
  - apply Rmax_lub; [ apply Rmax_l | ].
    eapply Rle_trans; [ | apply Rmax_r ]. lra.
  - apply Rmax_lub; [ apply Rmax_l | ].
    eapply Rle_trans; [ | apply Rmax_r ]. lra.
  - apply Rmax_l.
  - apply Rmax_l.
  - apply Rmax_lub; lra.
  - eapply Rlt_le_trans; [ | apply Rmax_r ]. lra.
Qed.

Lemma star_disc_brighter_larger_witness :
  Paint.starSize 1.36 <= Paint.starSize (-1.46)
  /\ Paint.starAlpha 1.36 <= Paint.starAlpha (-1.46)
  /\ 0.5 <= Paint.starSize 1.36
  /\ 0.3 <= Paint.starAlpha 1.36
  /\ Paint.starAlpha 0.03 <= 1
  /\ 1 < Paint.starAlpha (-0.05).
Proof.
  apply (star_disc_brighter_larger (-1.46) 1.36 0.03 (-0.05)); lra.
Defined.

(** X20: the discs of a frame are the visible stars: [render] moves the
    origin to a point exactly when that point is the projection of a
    catalog star that passes [isPointVisible], so the point lies within
    the margin of 50 pixels around the canvas. *)
Theorem render_star_discs (this : StarMap) (px py : R) :
  In (Paint.Translate px py) (eval Paint.render this) <->
  exists star : Star,
    In star (stars this)
    /\ starVisible this star = true
    /\ mkPoint px py = eval (raDecToCanvas (ra star) (dec star)) this
    /\ Spec.withinMargin (mkPoint px py)
                         (width (canvas this)) (height (canvas this)).
Proof.
  rewrite render_In. split.
  - intros [ H | [ (_ & [ H | (line & _ & H) ]) | [ (star & Hin & H) | (obj & _ & H) ] ] ].
    + cbn [In] in H. intuition discriminate.
    + cbn [In] in H. intuition discriminate.
    + exfalso. unfold eval in H. rewrite drawLine_run in H. cbn [fst] in H.
      destruct (lineVisible this line); cbn [In] in H; intuition discriminate.
    + exists star. unfold eval in H at 1. rewrite drawStar_run in H.
      cbn [fst] in H. destruct (starVisible this star) eqn:Hv; [ | destruct H ].
      assert (Hp : mkPoint px py = eval (raDecToCanvas (ra star) (dec star)) this).
      { destruct (Paint.isLabelled star); cbn [app In] in H;
          intuition (try discriminate).
        all: match goal with E : Paint.Translate _ _ = Paint.Translate _ _ |- _ =>
               injection E as <- <- end;
             reflexivity. }
      split; [ exact Hin | split; [ reflexivity | split; [ exact Hp | ] ] ].
      rewrite Hp. apply visibleAt_true_iff. exact Hv.
    + exfalso. unfold eval in H. rewrite drawObject_run in H. cbn [fst] in H.
      destruct (objectVisible this obj); cbn [In] in H; intuition discriminate.
  - intros (star & Hin & Hv & Hp & _). right. right. left. exists star.
    split; [ exact Hin | ].
    change (eval (Paint.drawStar star) this)
      with (fst (Paint.drawStar star this)).
    rewrite drawStar_run. cbn [fst]. rewrite Hv. cbv zeta. rewrite <- Hp.
    cbn [x y]. apply in_or_app. left. cbn [In]. auto.
Qed.

(** Every action keeps the canvas 600 pixels high. *)
Lemma perform_height (a : Action) (this : StarMap) :
  height (canvas this) = 600 ->
  height (canvas (exec (perform a) this)) = 600.
Proof.
  intros H. destruct (isResize a) eqn:E.
  - destruct a; try discriminate E. reflexivity.
  - rewrite perform_canvas_frame by exact E. exact H.
Qed.

(** X21: the canvas of a constructed map is always 600 pixels high: the
    constructor and the resize handler set that height, and no other
    action assigns the canvas; so the centre the projection uses is always
    at y = 300. *)
Theorem canvas_height_fixed (rectWidth : R) (random : nat -> R)
    (actions : list Action) :
  let this := run actions (newStarMap rectWidth random) in
  height (canvas this) = 600
  /\ y (canvasCenter this) = 300.
Proof.
  intros this.
  assert (H : height (canvas this) = 600).
  { unfold this. generalize (newStarMap rectWidth random),
      (eq_refl : height (canvas (newStarMap rectWidth random)) = 600).
    induction actions as [ | a actions IH ]; intros s Hs; [ exact Hs | ].
    rewrite run_cons. apply IH. apply perform_height. exact Hs. }
  split; [ exact H | ]. unfold canvasCenter. cbn [y]. rewrite H. lra.
Qed.

(** X22: the zoom controls go the way they say: with the zoom in
    [0.5, 5], the zoom-in button and a wheel tick up never lower it, the
    zoom-out button and a wheel tick down never raise it, and at the
    bounds they stop: zoom-in leaves a zoom of 5 and zoom-out a zoom of
    0.5 as they are. *)
Theorem zoom_controls_direction (up down : R) (this : StarMap) :
  0.5 <= zoom this <= 5 ->
  up <= 0 -> 0 < down ->
  zoom this <= zoom (exec onZoomIn this)
  /\ zoom this <= zoom (exec (onWheel up) this)
  /\ zoom (exec onZoomOut this) <= zoom this
  /\ zoom (exec (onWheel down) this) <= zoom this
  /\ zoom (exec onZoomIn (exec (assign (set_zoom 5)) this)) = 5
  /\ zoom (exec onZoomOut (exec (assign (set_zoom 0.5)) this)) = 0.5.
Proof.
  intros [Hlo Hhi] Hup Hdown.
  assert (Eup : (up >? 0) = false) by (apply gtb_false_iff; exact Hup).
  assert (Edown : (down >? 0) = true) by (apply gtb_true_iff; exact Hdown).
  rewrite zoom_onZoomIn, zoom_onZoomOut, !zoom_onWheel, Eup, Edown.
  repeat split.
  - apply Rmin_glb; lra.
  - eapply Rle_trans; [ | apply Rmax_r ]. apply Rmin_glb; lra.
  - apply Rmax_lub; lra.
  - apply Rmax_lub; [ lra | ]. eapply Rle_trans; [ apply Rmin_r | lra ].
  - rewrite zoom_onZoomIn. change (zoom (exec (assign (set_zoom 5)) this)) with 5.
    apply Rmin_left. lra.
  - rewrite zoom_onZoomOut.
    change (zoom (exec (assign (set_zoom 0.5)) this)) with 0.5.
    apply Rmax_left. lra.
Qed.

Lemma zoom_controls_direction_witness :
  let this := newStarMap 840 (fun _ => 0) in
  zoom this <= zoom (exec onZoomIn this)
  /\ zoom this <= zoom (exec (onWheel (-100)) this)
  /\ zoom (exec onZoomOut this) <= zoom this
  /\ zoom (exec (onWheel 100) this) <= zoom this
  /\ zoom (exec onZoomIn (exec (assign (set_zoom 5)) this)) = 5
  /\ zoom (exec onZoomOut (exec (assign (set_zoom 0.5)) this)) = 0.5.
Proof.
  intros this.
  apply (zoom_controls_direction (-100) 100 this); unfold this; cbn; lra.
Defined.
